(** * Sync-One2 serial API client: a shallow embedding of [Sync_One2.py]

    The class [SyncOne2] of [src/Python/Sync_One2.py] drives a measurement
    instrument over a serial line.  Every method is embedded below as a
    computation in a state-and-exception monad over the fields of the
    object and the serial port it owns.

    Modelling conventions.
    - Text is 7-bit ASCII, as the wire protocol prescribes, so [bytes.decode]
      and [str.encode] are the identity on [string].
    - The device side of the serial line is the list [rx] of the results of
      the [read_until] calls still to come; a read that times out yields the
      data received so far, possibly nothing, and once [rx] is exhausted
      every read times out with no data.
    - A Python [float] is represented by the rational its literal denotes
      (the double is the nearest binary64 to it), plus infinities and NaN;
      the sign of zero and the overflow of huge literals to infinity are
      not represented.  [int] is unbounded, without the digit-count limit
      of recent interpreters.
    - Python exceptions are outcomes [Raise e]; the state reached when the
      exception was raised is kept.
    - The two [while] loops are given an iteration bound computed from
      [rx]; [wait_loop_io], [wait_for_string_within_bound] and
      [stats_loop_io] show that the bound is never what stops them. *)

From Stdlib Require Import String Ascii List ZArith Lia Bool Sorted.
From Stdlib Require Import QArith_base Qreduction DecimalString DecimalZ.
Import ListNotations.

Local Open Scope string_scope.
Local Open Scope Z_scope.

(** ** Python built-ins on text *)

Module PyStr.

(** [needle in hay] *)
Fixpoint contains (needle hay : string) : bool :=
  String.prefix needle hay ||
  match hay with
  | EmptyString => false
  | String _ t => contains needle t
  end.

(** [s.replace(c, '')] for a one-character [c] *)
Fixpoint remove_char (c : ascii) (s : string) : string :=
  match s with
  | EmptyString => EmptyString
  | String a t => if Ascii.eqb a c then remove_char c t
                  else String a (remove_char c t)
  end.

(** [s.split(sep)] for a one-character separator: never the empty list *)
Fixpoint split (sep : ascii) (s : string) : list string :=
  match s with
  | EmptyString => [EmptyString]
  | String a t =>
      if Ascii.eqb a sep then EmptyString :: split sep t
      else match split sep t with
           | h :: r => String a h :: r
           | [] => [String a EmptyString]
           end
  end.

(** truth value of a string: [bool(s)] *)
Definition truthy (s : string) : bool :=
  match s with
  | EmptyString => false
  | String _ _ => true
  end.

(** [str(n)] for an integer *)
Definition str_of_int (n : Z) : string :=
  NilZero.string_of_int (Z.to_int n).

(** The characters [int] and [float] skip around a literal:
    tab, line feed, vertical tab, form feed, carriage return, space. *)
Definition is_space (c : ascii) : bool :=
  let n := nat_of_ascii c in
  ((9 <=? n) && (n <=? 13) || (n =? 32))%nat.

Fixpoint lstrip (s : string) : string :=
  match s with
  | String c t => if is_space c then lstrip t else s
  | EmptyString => EmptyString
  end.

Fixpoint all_space (s : string) : bool :=
  match s with
  | String c t => is_space c && all_space t
  | EmptyString => true
  end.

Definition digit_of (c : ascii) : option Z :=
  let n := nat_of_ascii c in
  if ((48 <=? n) && (n <=? 57))%nat then Some (Z.of_nat (n - 48)) else None.

(** After a first digit: [(["_"] digit)*], accumulating the value and the
    number of digits; stops in front of the first character that does not
    continue the run. *)
Fixpoint digits_tail (acc : Z) (n : nat) (s : string) : Z * nat * string :=
  match s with
  | String c t =>
      match digit_of c with
      | Some d => digits_tail (10 * acc + d) (S n) t
      | None =>
          if Ascii.eqb c "_" then
            match t with
            | String c' t' =>
                match digit_of c' with
                | Some d => digits_tail (10 * acc + d) (S n) t'
                | None => (acc, n, s)
                end
            | EmptyString => (acc, n, s)
            end
          else (acc, n, s)
      end
  | EmptyString => (acc, n, s)
  end.

(** [digitpart ::= digit (["_"] digit)*] *)
Definition digitpart (s : string) : option (Z * nat * string) :=
  match s with
  | String c t =>
      match digit_of c with
      | Some d => Some (digits_tail d 1 t)
      | None => None
      end
  | EmptyString => None
  end.

(** optional sign: [true] for "-" *)
Definition sign (s : string) : bool * string :=
  match s with
  | String c t =>
      if Ascii.eqb c "-" then (true, t)
      else if Ascii.eqb c "+" then (false, t)
      else (false, s)
  | EmptyString => (false, s)
  end.

(** [int(s)] in base 10; [None] stands for [ValueError]. *)
Definition parse_int (s : string) : option Z :=
  let (neg, s1) := sign (lstrip s) in
  match digitpart s1 with
  | Some (v, _, rest) =>
      if all_space rest then Some (if neg then - v else v) else None
  | None => None
  end.

End PyStr.

(** ** Python floats *)

Inductive pyfloat : Type :=
| FFinite (q : Q)
| FInf (negative : bool)
| FNan.

Module PyFloat.
Import PyStr.

Definition lower (c : ascii) : ascii :=
  let n := nat_of_ascii c in
  if ((65 <=? n) && (n <=? 90))%nat then ascii_of_nat (n + 32) else c.

(** case-insensitive prefix test against a lower-case word *)
Fixpoint iprefix (word s : string) : option string :=
  match word with
  | EmptyString => Some s
  | String w word' =>
      match s with
      | String c t => if Ascii.eqb (lower c) w then iprefix word' t else None
      | EmptyString => None
      end
  end.

(** the rational [m * 10 ^ e] in lowest terms *)
Definition decimal (m e : Z) : Q :=
  if 0 <=? e then Qmake (m * 10 ^ e) 1
  else Qred (Qmake m (Z.to_pos (10 ^ (- e)))).

(** [number ::= [digitpart] "." digitpart | digitpart ["."]]: the digits
    as one integer, the count of fraction digits, and the rest. *)
Definition number (s : string) : option (Z * nat * string) :=
  match digitpart s with
  | Some (i, _, String c t) =>
      if Ascii.eqb c "." then
        match digitpart t with
        | Some (f, k, rest) => Some (i * 10 ^ Z.of_nat k + f, k, rest)
        | None => Some (i, O, t)
        end
      else Some (i, O, String c t)
  | Some (i, _, EmptyString) => Some (i, O, EmptyString)
  | None =>
      match s with
      | String c t =>
          if Ascii.eqb c "." then
            match digitpart t with
            | Some (f, k, rest) => Some (f, k, rest)
            | None => None
            end
          else None
      | EmptyString => None
      end
  end.

(** [exponent ::= ("e" | "E") [sign] digitpart]; when the text after the
    number is not an exponent it is left to the caller. *)
Definition exponent (s : string) : Z * string :=
  match s with
  | String c t =>
      if Ascii.eqb (lower c) "e" then
        let (neg, t1) := sign t in
        match digitpart t1 with
        | Some (x, _, rest) => ((if neg then - x else x), rest)
        | None => (0, s)
        end
      else (0, s)
  | EmptyString => (0, s)
  end.

Definition absfloat (neg : bool) (s : string) : option (pyfloat * string) :=
  match iprefix "inf" s with
  | Some t =>
      match iprefix "inity" t with
      | Some t' => Some (FInf neg, t')
      | None => Some (FInf neg, t)
      end
  | None =>
      match iprefix "nan" s with
      | Some t => Some (FNan, t)
      | None =>
          match number s with
          | Some (m, k, t) =>
              let (x, rest) := exponent t in
              Some (FFinite (decimal (if neg then - m else m)
                                     (x - Z.of_nat k)), rest)
          | None => None
          end
      end
  end.

(** [float(s)]; [None] stands for [ValueError]. *)
Definition parse_float (s : string) : option pyfloat :=
  let (neg, s1) := sign (lstrip s) in
  match absfloat neg s1 with
  | Some (f, rest) => if all_space rest then Some f else None
  | None => None
  end.

End PyFloat.

(** ** Python values returned by the methods *)

#[warnings="-register-all"]
Inductive value : Type :=
| VNone
| VBool (b : bool)
| VInt (n : Z)
| VFloat (f : pyfloat)
| VStr (s : string)
| VList (l : list value).

Inductive exn : Type :=
| ValueError          (* int() or float() on a malformed literal *)
| IndexError          (* list index out of range *)
| TypeError
| OverflowError
| AttributeError      (* self.__com_port read before any open *)
| PortNotOpenError    (* pyserial: I/O on a closed port *)
| LoopBound.          (* a loop ran past the bound given to its model *)

Inductive outcome (A : Type) : Type :=
| Return (a : A)
| Raise (e : exn).
Arguments Return {A} a.
Arguments Raise {A} e.

(** ** The session object and the serial line *)

(** The [serial.Serial] object: whether it is open, and its read timeout
    in seconds. *)
Record Serial : Type := mkSerial { is_open : bool; timeout : Z }.

(** Transport I/O, in the order performed. *)
Inductive event : Type :=
| EvOpen (ok : bool)                 (* serial.Serial(...) *)
| EvResetInput                       (* reset_input_buffer() *)
| EvWrite (data : string)            (* write(data) *)
| EvRead (tmo : Z) (data : string)   (* read_until(b'\r') under timeout tmo *)
| EvClose.                           (* close() *)

Record state : Type := mkState {
  serial_port : string;         (* self.__serial_port *)
  in_API : bool;                (* self.__in_API *)
  com_port : option Serial;     (* self.__com_port; absent before an open *)
  openable : bool;              (* does opening the named port succeed *)
  rx : list string;             (* results of the reads to come *)
  trace : list event            (* transport I/O so far *)
}.

Definition set_in_API (b : bool) (st : state) : state :=
  mkState (serial_port st) b (com_port st) (openable st) (rx st) (trace st).
Definition set_com_port (p : option Serial) (st : state) : state :=
  mkState (serial_port st) (in_API st) p (openable st) (rx st) (trace st).
Definition set_rx (l : list string) (st : state) : state :=
  mkState (serial_port st) (in_API st) (com_port st) (openable st) l (trace st).
Definition log (e : event) (st : state) : state :=
  mkState (serial_port st) (in_API st) (com_port st) (openable st) (rx st)
          (trace st ++ [e]).

(** [SyncOne2(serial_port)]: the constructor touches no transport. *)
Definition init (port : string) (can_open : bool) (incoming : list string) : state :=
  mkState port false None can_open incoming [].

(** The transport is closed when no port object exists or it is closed. *)
Definition transport_closed (st : state) : bool :=
  match com_port st with
  | None => true
  | Some p => negb (is_open p)
  end.

(** ** The monad of methods *)

Definition M (A : Type) : Type := state -> outcome A * state.

Definition ret {A} (a : A) : M A := fun st => (Return a, st).
Definition raise {A} (e : exn) : M A := fun st => (Raise e, st).
Definition bind {A B} (m : M A) (k : A -> M B) : M B :=
  fun st =>
    match m st with
    | (Return a, st') => k a st'
    | (Raise e, st') => (Raise e, st')
    end.
Definition lift {A} (o : outcome A) : M A := fun st => (o, st).

Declare Scope py_scope.
Delimit Scope py_scope with py.
Notation "x <- m ;; k" := (bind m (fun x => k))
  (at level 61, m at next level, right associativity) : py_scope.
Notation "m ;; k" := (bind m (fun _ => k))
  (at level 61, right associativity) : py_scope.
Local Open Scope py_scope.

(** ** pyserial primitives *)

(** [self.__com_port] as an open port, or the exception the access or the
    I/O on it raises. *)
Definition the_port (need_open : bool) : M Serial := fun st =>
  match com_port st with
  | None => (Raise AttributeError, st)
  | Some p =>
      if need_open && negb (is_open p) then (Raise PortNotOpenError, st)
      else (Return p, st)
  end.

(** [self.__com_port.read_until(b'\r')]: the next pending read, or a
    timeout with no data when nothing is pending. *)
Definition read_until_cr : M string :=
  p <- the_port true ;;
  fun st =>
    let data := hd "" (rx st) in
    (Return data, log (EvRead (timeout p) data) (set_rx (tl (rx st)) st)).

(** [self.__com_port.write(data)] *)
Definition write (data : string) : M unit :=
  p <- the_port true ;;
  fun st => (Return tt, log (EvWrite data) st).

(** [self.__com_port.reset_input_buffer()] *)
Definition reset_input_buffer : M unit :=
  p <- the_port true ;;
  fun st => (Return tt, log EvResetInput st).

(** [self.__com_port.close()] *)
Definition close : M unit :=
  p <- the_port false ;;
  fun st => (Return tt,
             log EvClose (set_com_port (Some (mkSerial false (timeout p))) st)).

(** [self.__com_port.timeout = t] *)
Definition set_timeout (t : Z) : M unit :=
  p <- the_port false ;;
  fun st => (Return tt, set_com_port (Some (mkSerial (is_open p) t)) st).

(** ** Private methods *)

Definition CR : string := String (ascii_of_nat 13) EmptyString.

(** [__open_port]: the [SerialException] of a failed open is caught. *)
Definition open_port : M bool := fun st =>
  if openable st then
    (reset_input_buffer ;; ret true)
      (log (EvOpen true) (set_com_port (Some (mkSerial true 1)) st))
  else (Return false, log (EvOpen false) st).

(** [__close_port] *)
Definition close_port : M unit := close.

(** [__parse_line] *)
Definition parse_line (line_data : string) : string :=
  PyStr.remove_char (ascii_of_nat 13) line_data.

(** [__get_reply] *)
Definition get_reply : M string :=
  reply <- read_until_cr ;;
  ret (parse_line reply).

(** [__send_command] *)
Definition send_command (string : string) : M unit :=
  write (string ++ CR).

(** The [while] loop of [__wait_for_string], entered with the current
    [reply].  Every iteration that goes round again has consumed a pending
    read, so [bound] iterations suffice when [bound] exceeds [length rx]. *)
Fixpoint wait_loop (bound : nat) (string reply : string) : M bool :=
  if PyStr.contains string reply then ret true
  else match bound with
       | O => raise LoopBound
       | S n =>
           reply <- get_reply ;;
           if negb (PyStr.truthy reply) then ret false
           else wait_loop n string reply
       end.

(** [__wait_for_string] *)
Definition wait_for_string (string : string) : M bool :=
  reply <- get_reply ;;
  fun st => wait_loop (S (length (rx st))) string reply st.

(** [__commmand_and_reply] *)
Definition commmand_and_reply (cmd_string : string) : M string :=
  send_command cmd_string ;;
  get_reply.

(** ** Conversions and list updates on values *)

(** [int(v)] *)
Definition py_int (v : value) : outcome value :=
  match v with
  | VStr s =>
      match PyStr.parse_int s with
      | Some n => Return (VInt n)
      | None => Raise ValueError
      end
  | VInt n => Return (VInt n)
  | VBool b => Return (VInt (if b then 1 else 0))
  | VFloat (FFinite q) => Return (VInt (Z.quot (Qnum q) (Zpos (Qden q))))
  | VFloat (FInf _) => Raise OverflowError
  | VFloat FNan => Raise ValueError
  | VNone | VList _ => Raise TypeError
  end.

(** [float(v)] *)
Definition py_float (v : value) : outcome value :=
  match v with
  | VStr s =>
      match PyFloat.parse_float s with
      | Some f => Return (VFloat f)
      | None => Raise ValueError
      end
  | VInt n => Return (VFloat (FFinite (Qmake n 1)))
  | VBool b => Return (VFloat (FFinite (Qmake (if b then 1 else 0) 1)))
  | VFloat f => Return (VFloat f)
  | VNone | VList _ => Raise TypeError
  end.

Fixpoint set_nth {A} (i : nat) (a : A) (l : list A) : list A :=
  match l, i with
  | [], _ => []
  | _ :: t, O => a :: t
  | h :: t, S j => h :: set_nth j a t
  end.

(** [l[i] = conv(l[i])] *)
Definition convert_at (conv : value -> outcome value) (i : nat)
    (l : list value) : outcome (list value) :=
  match nth_error l i with
  | None => Raise IndexError
  | Some v =>
      match conv v with
      | Return v' => Return (set_nth i v' l)
      | Raise e => Raise e
      end
  end.

(** [for col in cols: row[col] = float(row[col])] *)
Fixpoint convert_cols (cols : list nat) (row : list value) : outcome (list value) :=
  match cols with
  | [] => Return row
  | col :: cols' =>
      match convert_at py_float col row with
      | Return row' => convert_cols cols' row'
      | Raise e => Raise e
      end
  end.

(** [for row in stats_list: for col in range(6): ...] *)
Fixpoint convert_rows (stats_list : list (list value)) : outcome (list (list value)) :=
  match stats_list with
  | [] => Return []
  | row :: rows =>
      match convert_cols (seq 0 6) row with
      | Return row' =>
          match convert_rows rows with
          | Return rows' => Return (row' :: rows')
          | Raise e => Raise e
          end
      | Raise e => Raise e
      end
  end.

(** [reply.split(",")] as a list of strings *)
Definition split_comma (reply : string) : list value :=
  map VStr (PyStr.split "," reply).

(** ** Public methods

    Each returns the pair (value, flag) of the source.  Numeric arguments
    are the integers the docstrings declare, formatted by [str]; default
    arguments are left to the caller. *)

Definition get_in_API : M bool := fun st => (Return (in_API st), st).
Definition put_in_API (b : bool) : M unit := fun st => (Return tt, set_in_API b st).

Definition ERR_mode : value := VStr "ERR Not in API mode".
Definition DQ : string := String (ascii_of_nat 34) EmptyString.

(** The tail shared by the setters: [(reply, "ERR" not in reply)] *)
Definition err_checked (reply : string) : M (value * bool) :=
  if negb (PyStr.contains "ERR" reply) then ret (VStr reply, true)
  else ret (VStr reply, false).

Definition enter_API : M bool :=
  opened <- open_port ;;
  if Bool.eqb opened false then ret false
  else
    send_command "API" ;;
    result <- wait_for_string "OK" ;;
    (if result then put_in_API true else put_in_API false) ;;
    ret result.

Definition audio_in : M (value * bool) :=
  b <- get_in_API ;;
  if b then
    reply <- commmand_and_reply "AUDIO IN" ;;
    ret (VStr reply, true)
  else ret (ERR_mode, false).

Definition calibrate : M (value * bool) :=
  b <- get_in_API ;;
  if b then
    set_timeout 10 ;;
    send_command "CALIBRATE" ;;
    reply <- wait_for_string "OK" ;;
    set_timeout 1 ;;
    ret (VStr "OK", reply)
  else ret (ERR_mode, false).

Definition clear_stats : M (value * bool) :=
  b <- get_in_API ;;
  if b then
    send_command "CLEAR STATS" ;;
    reply <- wait_for_string "OK" ;;
    ret (VStr "OK", reply)
  else ret (ERR_mode, false).

Definition custom_splash_1 (message : string) : M (value * bool) :=
  b <- get_in_API ;;
  if b then
    reply <- commmand_and_reply ("CUSTOM SPLASH 1 " ++ DQ ++ message ++ DQ ++ " ") ;;
    err_checked reply
  else ret (ERR_mode, false).

Definition custom_splash_2 (message : string) : M (value * bool) :=
  b <- get_in_API ;;
  if b then
    reply <- commmand_and_reply ("CUSTOM SPLASH 2 " ++ DQ ++ message ++ DQ ++ " ") ;;
    err_checked reply
  else ret (ERR_mode, false).

Definition exit_API : M (value * bool) :=
  b <- get_in_API ;;
  if b then
    send_command "EXIT" ;;
    put_in_API false ;;
    reply <- wait_for_string "OK" ;;
    close_port ;;
    ret (VStr "OK", reply)
  else ret (ERR_mode, false).

Definition extended_mode : M (value * bool) :=
  b <- get_in_API ;;
  if b then
    reply <- commmand_and_reply "EXTENDED MODE" ;;
    ret (VStr reply, true)
  else ret (ERR_mode, false).

Definition frame_rate : M (value * bool) :=
  b <- get_in_API ;;
  if b then
    reply <- commmand_and_reply "FRAME RATE" ;;
    reply <- lift (py_int (VStr reply)) ;;
    ret (reply, true)
  else ret (ERR_mode, false).

Definition mask_len : M (value * bool) :=
  b <- get_in_API ;;
  if b then
    reply <- commmand_and_reply "MASK LEN" ;;
    reply <- lift (py_int (VStr reply)) ;;
    ret (reply, true)
  else ret (ERR_mode, false).

Definition offset : M (value * bool) :=
  b <- get_in_API ;;
  if b then
    reply <- commmand_and_reply "OFFSET" ;;
    reply <- lift (py_float (VStr reply)) ;;
    ret (reply, true)
  else ret (ERR_mode, false).

Definition reset_settings : M (value * bool) :=
  b <- get_in_API ;;
  if b then
    reply <- commmand_and_reply "RESET SETTINGS" ;;
    ret (VStr "OK", true)
  else ret (ERR_mode, false).

Definition set_audio_in (audio_port : string) : M (value * bool) :=
  b <- get_in_API ;;
  if b then
    reply <- commmand_and_reply ("SET AUDIO IN " ++ audio_port) ;;
    err_checked reply
  else ret (ERR_mode, false).

Definition set_audio_trigger_level (trigger_level : Z) : M (value * bool) :=
  b <- get_in_API ;;
  if b then
    reply <- commmand_and_reply
               ("SET AUDIO TRIGGER LEVEL " ++ PyStr.str_of_int trigger_level) ;;
    err_checked reply
  else ret (ERR_mode, false).

Definition ser_extended_mode (mode : string) : M (value * bool) :=
  b <- get_in_API ;;
  if b then
    reply <- commmand_and_reply ("SET EXTENDED MODE " ++ mode) ;;
    err_checked reply
  else ret (ERR_mode, false).

Definition set_frame_rate (frames : Z) : M (value * bool) :=
  b <- get_in_API ;;
  if b then
    reply <- commmand_and_reply ("SET FRAME RATE " ++ PyStr.str_of_int frames) ;;
    err_checked reply
  else ret (ERR_mode, false).

Definition set_mask_len (mask : Z) : M (value * bool) :=
  b <- get_in_API ;;
  if b then
    reply <- commmand_and_reply ("SET MASK LEN " ++ PyStr.str_of_int mask) ;;
    err_checked reply
  else ret (ERR_mode, false).

Definition set_offset (offset : Z) : M (value * bool) :=
  b <- get_in_API ;;
  if b then
    reply <- commmand_and_reply ("SET OFFSET " ++ PyStr.str_of_int offset) ;;
    err_checked reply
  else ret (ERR_mode, false).

Definition set_speaker_dist (distance : Z) : M (value * bool) :=
  b <- get_in_API ;;
  if b then
    reply <- commmand_and_reply ("SET SPEAKER DIST " ++ PyStr.str_of_int distance) ;;
    err_checked reply
  else ret (ERR_mode, false).

Definition set_video_trigger_level (trigger_level : Z) : M (value * bool) :=
  b <- get_in_API ;;
  if b then
    reply <- commmand_and_reply
               ("SET VIDEO TRIGGER LEVEL " ++ PyStr.str_of_int trigger_level) ;;
    err_checked reply
  else ret (ERR_mode, false).

Definition settings : M (value * bool) :=
  b <- get_in_API ;;
  if b then
    reply <- commmand_and_reply "SETTINGS" ;;
    let settings_data := split_comma reply in
    settings_data <- lift (convert_at py_int 2 settings_data) ;;
    settings_data <- lift (convert_at py_int 3 settings_data) ;;
    settings_data <- lift (convert_at py_float 4 settings_data) ;;
    settings_data <- lift (convert_at py_int 5 settings_data) ;;
    settings_data <- lift (convert_at py_int 7 settings_data) ;;
    settings_data <- lift (convert_at py_int 8 settings_data) ;;
    settings_data <- lift (convert_at py_int 9 settings_data) ;;
    ret (VList settings_data, true)
  else ret (ERR_mode, false).

Definition speaker_dist : M (value * bool) :=
  b <- get_in_API ;;
  if b then
    reply <- commmand_and_reply "SPEAKER DIST" ;;
    let distance := split_comma reply in
    distance <- lift (convert_at py_float 0 distance) ;;
    distance <- lift (convert_at py_int 1 distance) ;;
    distance <- lift (convert_at py_int 2 distance) ;;
    ret (VList distance, true)
  else ret (ERR_mode, false).

Definition support_code : M (value * bool) :=
  b <- get_in_API ;;
  if b then
    reply <- commmand_and_reply "SUPPORT CODE" ;;
    ret (VStr reply, true)
  else ret (ERR_mode, false).

Definition start : M (value * bool) :=
  b <- get_in_API ;;
  if b then
    set_timeout 10 ;;
    reply <- commmand_and_reply "START" ;;
    wait_for_string "START" ;;
    set_timeout 1 ;;
    err_checked reply
  else ret (ERR_mode, false).

Definition start_nocal : M (value * bool) :=
  b <- get_in_API ;;
  if b then
    reply <- commmand_and_reply "START NOCAL" ;;
    wait_for_string "START" ;;
    err_checked reply
  else ret (ERR_mode, false).

(** The [while read_line:] loop of [stats].  An iteration goes round again
    only after a read that returned text, hence consumed a pending read. *)
Fixpoint stats_loop (bound : nat) (stats_list : list (list value))
    (read_line : string) : M (list (list value)) :=
  if PyStr.truthy read_line then
    match bound with
    | O => raise LoopBound
    | S n =>
        let stats_list := (stats_list ++ [split_comma read_line])%list in
        read_line <- get_reply ;;
        stats_loop n stats_list read_line
    end
  else ret stats_list.

Definition stats : M (value * bool) :=
  let stats_list := [] in
  b <- get_in_API ;;
  if b then
    send_command "STATS" ;;
    read_line <- get_reply ;;
    if negb (PyStr.contains "ERR" read_line) then
      stats_list <- (fun st => stats_loop (S (length (rx st))) stats_list read_line st) ;;
      stats_list <- lift (convert_rows stats_list) ;;
      ret (VList (map VList stats_list), true)
    else ret (VStr read_line, false)
  else ret (ERR_mode, false).

Definition stats_avg : M (value * bool) :=
  b <- get_in_API ;;
  if b then
    reply <- commmand_and_reply "STATS AVG" ;;
    if negb (PyStr.contains "ERR" reply) then
      let avg_stats := split_comma reply in
      avg_stats <- lift (convert_at py_int 0 avg_stats) ;;
      avg_stats <- lift (convert_at py_float 1 avg_stats) ;;
      ret (VList avg_stats, true)
    else ret (VStr reply, false)
  else ret (ERR_mode, false).

Definition stats_count : M (value * bool) :=
  b <- get_in_API ;;
  if b then
    reply <- commmand_and_reply "STATS COUNT" ;;
    reply <- lift (py_int (VStr reply)) ;;
    ret (reply, true)
  else ret (ERR_mode, false).

Definition stats_span : M (value * bool) :=
  b <- get_in_API ;;
  if b then
    reply <- commmand_and_reply "STATS SPAN" ;;
    if negb (PyStr.contains "ERR" reply) then
      let span := split_comma reply in
      span <- lift (convert_at py_int 0 span) ;;
      span <- lift (convert_at py_float 1 span) ;;
      ret (VList span, true)
    else
      let span := reply in
      ret (VStr span, false)
  else ret (ERR_mode, false).

Definition stats_trim : M (value * bool) :=
  b <- get_in_API ;;
  if b then
    reply <- commmand_and_reply "STATS TRIM" ;;
    err_checked reply
  else ret (ERR_mode, false).

Definition stop : M (value * bool) :=
  b <- get_in_API ;;
  if b then
    send_command "STOP" ;;
    reply <- wait_for_string "OK" ;;
    ret (VStr "OK", true)
  else ret (ERR_mode, false).

Definition get_reading : M (value * bool) :=
  b <- get_in_API ;;
  if b then
    reading <- get_reply ;;
    if PyStr.truthy reading then
      reading <- lift (py_int (VStr reading)) ;;
      ret (reading, true)
    else ret (VNone, false)
  else ret (ERR_mode, false).

(** ** The public operations other than mode entry and mode exit *)

Inductive method : Type :=
| m_audio_in | m_calibrate | m_clear_stats
| m_custom_splash_1 (message : string) | m_custom_splash_2 (message : string)
| m_extended_mode | m_frame_rate | m_mask_len | m_offset | m_reset_settings
| m_set_audio_in (audio_port : string)
| m_set_audio_trigger_level (trigger_level : Z)
| m_ser_extended_mode (mode : string)
| m_set_frame_rate (frames : Z) | m_set_mask_len (mask : Z)
| m_set_offset (offset : Z) | m_set_speaker_dist (distance : Z)
| m_set_video_trigger_level (trigger_level : Z)
| m_settings | m_speaker_dist | m_support_code | m_start | m_start_nocal
| m_stats | m_stats_avg | m_stats_count | m_stats_span | m_stats_trim
| m_stop | m_get_reading.

Definition call (m : method) : M (value * bool) :=
  match m with
  | m_audio_in => audio_in
  | m_calibrate => calibrate
  | m_clear_stats => clear_stats
  | m_custom_splash_1 message => custom_splash_1 message
  | m_custom_splash_2 message => custom_splash_2 message
  | m_extended_mode => extended_mode
  | m_frame_rate => frame_rate
  | m_mask_len => mask_len
  | m_offset => offset
  | m_reset_settings => reset_settings
  | m_set_audio_in audio_port => set_audio_in audio_port
  | m_set_audio_trigger_level l => set_audio_trigger_level l
  | m_ser_extended_mode mode => ser_extended_mode mode
  | m_set_frame_rate frames => set_frame_rate frames
  | m_set_mask_len mask => set_mask_len mask
  | m_set_offset o => set_offset o
  | m_set_speaker_dist distance => set_speaker_dist distance
  | m_set_video_trigger_level l => set_video_trigger_level l
  | m_settings => settings
  | m_speaker_dist => speaker_dist
  | m_support_code => support_code
  | m_start => start
  | m_start_nocal => start_nocal
  | m_stats => stats
  | m_stats_avg => stats_avg
  | m_stats_count => stats_count
  | m_stats_span => stats_span
  | m_stats_trim => stats_trim
  | m_stop => stop
  | m_get_reading => get_reading
  end.

(** A session in remote mode on an open port: the states in which the
    methods talk to the device. *)
Definition live (p : Serial) (st : state) : Prop :=
  in_API st = true /\ com_port st = Some p /\ is_open p = true.

(** The flag and the transport agree: in remote mode the port is open,
    outside it the transport is closed.  A fresh session is consistent. *)
Definition consistent (st : state) : Prop :=
  (in_API st = true -> exists p, live p st) /\
  (in_API st = false -> transport_closed st = true).

(** A state to run examples in: remote mode on, port open with the default
    timeout, and [incoming] as the reads to come. *)
Definition in_session (incoming : list string) : state :=
  mkState "COM3" true (Some (mkSerial true 1)) true incoming [].

(** ** Steps that only talk to the device

    [only_io t st st'] : from [st] to [st'] the object is unchanged; reads
    were consumed from [rx] and the I/O added to the trace has every read
    made under timeout [t]. *)

Definition read_under (t : Z) (e : event) : Prop :=
  match e with
  | EvRead tmo _ => tmo = t
  | _ => True
  end.

Record only_io (t : Z) (st st' : state) : Prop := mk_only_io {
  io_serial_port : serial_port st' = serial_port st;
  io_in_API : in_API st' = in_API st;
  io_com_port : com_port st' = com_port st;
  io_openable : openable st' = openable st;
  io_rx : (length (rx st') <= length (rx st))%nat;
  io_trace : exists evs, trace st' = (trace st ++ evs)%list /\ Forall (read_under t) evs
}.

(** What C5 says of a call [f] started in [st]: it returns, the port is
    open with timeout 1 afterwards, and the I/O it added to the trace has
    every read made under timeout 10, with one such read at least. *)
Definition widened_call (f : M (value * bool)) (st : state) : Prop :=
  exists r st' evs,
    f st = (Return r, st') /\
    com_port st' = Some (mkSerial true 1) /\
    trace st' = (trace st ++ evs)%list /\
    Forall (read_under 10) evs /\
    (exists d, In (EvRead 10 d) evs).

(** ** Row and field predicates used in the statements *)

Definition is_some {A} (o : option A) : bool :=
  match o with Some _ => true | None => false end.

(** A STATS row whose first six fields exist and are float literals. *)
Definition numeric_row (line : string) : bool :=
  let fields := PyStr.split "," line in
  (6 <=? length fields)%nat &&
  forallb (fun s => is_some (PyFloat.parse_float s)) (firstn 6 fields).

(** [row] is [fields] with the first six turned into the floats they
    denote and the others kept as text. *)
Definition parsed_row (fields : list string) (row : list value) : Prop :=
  length row = length fields /\
  forall i s, nth_error fields i = Some s ->
    if (i <? 6)%nat
    then exists f, PyFloat.parse_float s = Some f /\ nth_error row i = Some (VFloat f)
    else nth_error row i = Some (VStr s).

(** The numeric positions of the tuple replies, in the order the methods
    convert them. *)
Inductive kind : Type := KInt | KFloat.

Definition settings_schema : list (nat * kind) :=
  [(2, KInt); (3, KInt); (4, KFloat); (5, KInt); (7, KInt); (8, KInt); (9, KInt)]%nat.

Definition speaker_dist_schema : list (nat * kind) :=
  [(0, KFloat); (1, KInt); (2, KInt)]%nat.

Definition well_formed (k : kind) (s : string) : bool :=
  match k with
  | KInt => is_some (PyStr.parse_int s)
  | KFloat => is_some (PyFloat.parse_float s)
  end.

(** Some numeric position of the schema holds a field that is not a
    literal of its kind. *)
Definition malformed_field (schema : list (nat * kind)) (fields : list string) : Prop :=
  exists i k s, In (i, k) schema /\ nth_error fields i = Some s /\ well_formed k s = false.

Definition conv (k : kind) : value -> outcome value :=
  match k with KInt => py_int | KFloat => py_float end.

(** The conversions of a schema, one after the other. *)
Fixpoint convert_schema (schema : list (nat * kind)) (l : list value) : outcome (list value) :=
  match schema with
  | [] => Return l
  | (i, k) :: schema' =>
      match convert_at (conv k) i l with
      | Return l' => convert_schema schema' l'
      | Raise e => Raise e
      end
  end.

(** The outcome of the scan of [__wait_for_string] for the token [s], as
    a function of the lines the reads will yield: the first line is only
    tested for the token; each later line ends the scan with [False] when
    empty and with [True] when it holds the token. *)
Fixpoint scan_tail (s : string) (lines : list string) : bool :=
  match lines with
  | [] => false
  | l :: rest =>
      if PyStr.truthy l then
        if PyStr.contains s l then true else scan_tail s rest
      else false
  end.

Definition scan (s : string) (lines : list string) : bool :=
  if PyStr.contains s (hd "" lines) then true else scan_tail s (tl lines).

(** ** What a guarded method may change *)

Definition is_rw (e : event) : bool :=
  match e with
  | EvWrite _ | EvRead _ _ => true
  | _ => false
  end.

Definition port_open (st : state) : bool :=
  match com_port st with
  | Some p => is_open p
  | None => false
  end.

(** [frame st st']: the session fields other than the port's timeout are
    unchanged, reads were consumed from the front of [rx], and the I/O
    added to the trace is writes and reads only. *)
Record frame (st st' : state) : Prop := mk_frame {
  fr_serial_port : serial_port st' = serial_port st;
  fr_in_API : in_API st' = in_API st;
  fr_openable : openable st' = openable st;
  fr_open : option_map is_open (com_port st') = option_map is_open (com_port st);
  fr_rx : exists k, rx st' = skipn k (rx st);
  fr_trace : exists evs, trace st' = (trace st ++ evs)%list /\ forallb is_rw evs = true
}.

(** [frame] with the port object, timeout included, unchanged. *)
Definition frame_strict (st st' : state) : Prop :=
  frame st st' /\ com_port st' = com_port st.

(** Every run of [m], returning or raising, relates its two states by [R]. *)
Definition respects (R : state -> state -> Prop) {A} (m : M A) : Prop :=
  forall st o st', m st = (o, st') -> R st st'.

(** ** Sequences of calls *)

(** Remote mode implies an open port. *)
Definition port_invariant (st : state) : Prop :=
  in_API st = true -> port_open st = true.

(** A step of a run: a public call, whose result the caller drops and
    whose exception, if any, the caller catches; or the outside world
    moving on: the port becoming available or not, the device sending
    more. *)
Inductive op : Type :=
| op_enter_API
| op_exit_API
| op_call (m : method)
| op_world (can_open : bool) (more : list string).

Definition exec (o : op) (st : state) : state :=
  match o with
  | op_enter_API => snd (enter_API st)
  | op_exit_API => snd (exit_API st)
  | op_call m => snd (call m st)
  | op_world can_open more =>
      mkState (serial_port st) (in_API st) (com_port st) can_open
              (rx st ++ more) (trace st)
  end.

Definition exec_all (ops : list op) (st : state) : state :=
  fold_left (fun s o => exec o s) ops st.

(** ** The I/O of a call *)

Definition is_read (e : event) : bool :=
  match e with
  | EvRead _ _ => true
  | _ => false
  end.

(** The trace grew by reads only. *)
Definition reads_only (st st' : state) : Prop :=
  exists evs, trace st' = (trace st ++ evs)%list /\ forallb is_read evs = true.

(** The command text each method sends, before the terminator;
    [get_reading] sends none. *)
Definition command_line (m : method) : option string :=
  match m with
  | m_audio_in => Some "AUDIO IN"
  | m_calibrate => Some "CALIBRATE"
  | m_clear_stats => Some "CLEAR STATS"
  | m_custom_splash_1 message => Some ("CUSTOM SPLASH 1 " ++ DQ ++ message ++ DQ ++ " ")
  | m_custom_splash_2 message => Some ("CUSTOM SPLASH 2 " ++ DQ ++ message ++ DQ ++ " ")
  | m_extended_mode => Some "EXTENDED MODE"
  | m_frame_rate => Some "FRAME RATE"
  | m_mask_len => Some "MASK LEN"
  | m_offset => Some "OFFSET"
  | m_reset_settings => Some "RESET SETTINGS"
  | m_set_audio_in audio_port => Some ("SET AUDIO IN " ++ audio_port)
  | m_set_audio_trigger_level l => Some ("SET AUDIO TRIGGER LEVEL " ++ PyStr.str_of_int l)
  | m_ser_extended_mode mode => Some ("SET EXTENDED MODE " ++ mode)
  | m_set_frame_rate frames => Some ("SET FRAME RATE " ++ PyStr.str_of_int frames)
  | m_set_mask_len mask => Some ("SET MASK LEN " ++ PyStr.str_of_int mask)
  | m_set_offset o => Some ("SET OFFSET " ++ PyStr.str_of_int o)
  | m_set_speaker_dist distance => Some ("SET SPEAKER DIST " ++ PyStr.str_of_int distance)
  | m_set_video_trigger_level l => Some ("SET VIDEO TRIGGER LEVEL " ++ PyStr.str_of_int l)
  | m_settings => Some "SETTINGS"
  | m_speaker_dist => Some "SPEAKER DIST"
  | m_support_code => Some "SUPPORT CODE"
  | m_start => Some "START"
  | m_start_nocal => Some "START NOCAL"
  | m_stats => Some "STATS"
  | m_stats_avg => Some "STATS AVG"
  | m_stats_count => Some "STATS COUNT"
  | m_stats_span => Some "STATS SPAN"
  | m_stats_trim => Some "STATS TRIM"
  | m_stop => Some "STOP"
  | m_get_reading => None
  end.

(** The methods that read exactly one reply line. *)
Definition single_reply (m : method) : bool :=
  match m with
  | m_calibrate | m_clear_stats | m_start | m_start_nocal | m_stats | m_stop => false
  | _ => true
  end.

(** The commands whose reply is checked for "ERR" and handed back. *)
Definition error_checked (m : method) : bool :=
  match m with
  | m_custom_splash_1 _ | m_custom_splash_2 _ | m_set_audio_in _
  | m_set_audio_trigger_level _ | m_ser_extended_mode _ | m_set_frame_rate _
  | m_set_mask_len _ | m_set_offset _ | m_set_speaker_dist _
  | m_set_video_trigger_level _ | m_stats_trim => true
  | _ => false
  end.

(** ** Tuple replies *)

Definition pair_schema : list (nat * kind) := [(0, KInt); (1, KFloat)]%nat.

Inductive tuple_query : Type :=
| tq_settings | tq_speaker_dist | tq_stats_avg | tq_stats_span.

Definition tq_method (q : tuple_query) : method :=
  match q with
  | tq_settings => m_settings
  | tq_speaker_dist => m_speaker_dist
  | tq_stats_avg => m_stats_avg
  | tq_stats_span => m_stats_span
  end.

(** The positions each tuple query converts, in the order of the source. *)
Definition tq_schema (q : tuple_query) : list (nat * kind) :=
  match q with
  | tq_settings => settings_schema
  | tq_speaker_dist => speaker_dist_schema
  | tq_stats_avg | tq_stats_span => pair_schema
  end.

(** Whether the method tests the reply for "ERR" before converting. *)
Definition tq_checks_ERR (q : tuple_query) : bool :=
  match q with
  | tq_stats_avg | tq_stats_span => true
  | _ => false
  end.

(** One more than the last position converted. *)
Definition tq_arity (q : tuple_query) : nat :=
  match q with
  | tq_settings => 10
  | tq_speaker_dist => 3
  | tq_stats_avg | tq_stats_span => 2
  end.

Definition kind_at (schema : list (nat * kind)) (i : nat) : option kind :=
  option_map snd (find (fun e => Nat.eqb (fst e) i) schema).

(** The value of a field: the number it denotes at a numeric position,
    the text itself elsewhere. *)
Definition field_value (k : option kind) (s : string) : value :=
  match k with
  | Some KInt =>
      match PyStr.parse_int s with Some n => VInt n | None => VStr s end
  | Some KFloat =>
      match PyFloat.parse_float s with Some f => VFloat f | None => VStr s end
  | None => VStr s
  end.

Fixpoint convert_fields (schema : list (nat * kind)) (i : nat)
    (fields : list string) : list value :=
  match fields with
  | [] => []
  | s :: rest => field_value (kind_at schema i) s :: convert_fields schema (S i) rest
  end.

(** Every position of the schema holds a field that is a literal of its
    kind. *)
Definition schema_ok (schema : list (nat * kind)) (fields : list string) : bool :=
  forallb (fun e => match nth_error fields (fst e) with
                    | Some s => well_formed (snd e) s
                    | None => false
                    end) schema.

(** Every field present at a position of the schema is a literal of its
    kind. *)
Definition present_ok (schema : list (nat * kind)) (fields : list string) : bool :=
  forallb (fun e => match nth_error fields (fst e) with
                    | Some s => well_formed (snd e) s
                    | None => true
                    end) schema.

(** ** Table rows *)

(** The columns [stats] converts in every row. *)
Definition row_schema : list (nat * kind) :=
  map (fun col => (col, KFloat)) (seq 0 6).


(** ** Characters of number literals *)

Fixpoint string_forall (f : ascii -> bool) (s : string) : bool :=
  match s with
  | EmptyString => true
  | String c t => f c && string_forall f t
  end.

Fixpoint mem (c : ascii) (s : string) : bool :=
  match s with
  | EmptyString => false
  | String a t => Ascii.eqb c a || mem c t
  end.

(** The characters that can occur in a text [int] or [float] accepts:
    spaces, digits, underscore, signs and point, and in either case the
    letters of "e", "inf", "infinity" and "nan". *)
Definition literal_char (c : ascii) : bool :=
  PyStr.is_space c || is_some (PyStr.digit_of c) || mem c "_+-." ||
  mem (PyFloat.lower c) "einftya".

(** [s] is [rest] after a prefix of characters satisfying [P]. *)
Definition consumes (P : ascii -> bool) (s rest : string) : Prop :=
  exists pre, s = pre ++ rest /\ string_forall P pre = true.

(** The value of a run of decimal digits read after [acc]. *)
Fixpoint uint_value (acc : Z) (d : Decimal.uint) : Z :=
  match d with
  | Decimal.Nil => acc
  | Decimal.D0 l => uint_value (10 * acc + 0) l
  | Decimal.D1 l => uint_value (10 * acc + 1) l
  | Decimal.D2 l => uint_value (10 * acc + 2) l
  | Decimal.D3 l => uint_value (10 * acc + 3) l
  | Decimal.D4 l => uint_value (10 * acc + 4) l
  | Decimal.D5 l => uint_value (10 * acc + 5) l
  | Decimal.D6 l => uint_value (10 * acc + 6) l
  | Decimal.D7 l => uint_value (10 * acc + 7) l
  | Decimal.D8 l => uint_value (10 * acc + 8) l
  | Decimal.D9 l => uint_value (10 * acc + 9) l
  end.

(** The steps of a run that are not mode entry or exit. *)
Definition keeps_mode (o : op) : bool :=
  match o with
  | op_call _ | op_world _ _ => true
  | op_enter_API | op_exit_API => false
  end.

(** * Properties *)

(** ** Sanity checks of the built-ins *)

Example parse_int_examples :
  PyStr.parse_int "60" = Some 60 /\ PyStr.parse_int " -7 " = Some (-7) /\
  PyStr.parse_int "1_000" = Some 1000 /\ PyStr.parse_int "" = None /\
  PyStr.parse_int "1.5" = None /\ PyStr.parse_int "ERR" = None.
Proof. repeat split; reflexivity. Qed.

Example parse_float_examples :
  PyFloat.parse_float "1.5" = Some (FFinite (Qmake 3 2)) /\
  PyFloat.parse_float "-2.50e1" = Some (FFinite (Qmake (-25) 1)) /\
  PyFloat.parse_float "inf" = Some (FInf false) /\
  PyFloat.parse_float "1e" = None /\ PyFloat.parse_float "" = None.
Proof. repeat split; reflexivity. Qed.

Example split_examples :
  PyStr.split "," "a,,b" = ["a"; ""; "b"] /\ PyStr.split "," "" = [""].
Proof. split; reflexivity. Qed.

(** ** Running the monad *)

Lemma bind_Return {A B} (m : M A) (k : A -> M B) st a st' :
  m st = (Return a, st') -> bind m k st = k a st'.
Proof. unfold bind. intros ->. reflexivity. Qed.

Lemma bind_Raise {A B} (m : M A) (k : A -> M B) st e st' :
  m st = (Raise e, st') -> bind m k st = (Raise e, st').
Proof. unfold bind. intros ->. reflexivity. Qed.

Lemma guard_in_API {A} (k : bool -> M A) st :
  bind get_in_API k st = k (in_API st) st.
Proof. reflexivity. Qed.

Lemma only_io_refl t st : only_io t st st.
Proof.
  constructor; auto. exists []. split; [now rewrite app_nil_r | constructor].
Qed.

Lemma only_io_trans t st1 st2 st3 :
  only_io t st1 st2 -> only_io t st2 st3 -> only_io t st1 st3.
Proof.
  intros [a1 b1 c1 d1 e1 [ev1 [f1 g1]]] [a2 b2 c2 d2 e2 [ev2 [f2 g2]]].
  constructor; try congruence; try lia.
  exists (ev1 ++ ev2)%list. split.
  - rewrite f2, f1, app_assoc. reflexivity.
  - apply Forall_app. split; assumption.
Qed.

Lemma get_reply_io st p :
  com_port st = Some p -> is_open p = true ->
  exists st', get_reply st = (Return (parse_line (hd "" (rx st))), st') /\
              rx st' = tl (rx st) /\ only_io (timeout p) st st'.
Proof.
  intros Hc Ho.
  unfold get_reply, read_until_cr, the_port, bind, ret. rewrite Hc, Ho. simpl.
  eexists. split; [reflexivity|]. split; [reflexivity|].
  constructor; simpl; auto.
  - destruct (rx st); simpl; lia.
  - eexists. split; [reflexivity|]. repeat constructor.
Qed.

Lemma send_command_io cmd st p :
  com_port st = Some p -> is_open p = true ->
  exists st', send_command cmd st = (Return tt, st') /\
              rx st' = rx st /\ only_io (timeout p) st st'.
Proof.
  intros Hc Ho.
  unfold send_command, write, the_port, bind. rewrite Hc, Ho. simpl.
  eexists. split; [reflexivity|]. split; [reflexivity|].
  constructor; simpl; auto.
  eexists. split; [reflexivity|]. repeat constructor.
Qed.

Lemma commmand_and_reply_io cmd st p :
  com_port st = Some p -> is_open p = true ->
  exists st', commmand_and_reply cmd st = (Return (parse_line (hd "" (rx st))), st') /\
              rx st' = tl (rx st) /\ only_io (timeout p) st st'.
Proof.
  intros Hc Ho.
  destruct (send_command_io cmd st p Hc Ho) as (st1 & E1 & R1 & I1).
  destruct (get_reply_io st1 p) as (st2 & E2 & R2 & I2).
  { rewrite (io_com_port _ _ _ I1). exact Hc. } { exact Ho. }
  exists st2. unfold commmand_and_reply. rewrite (bind_Return _ _ _ _ _ E1).
  cbv beta. rewrite E2, R2, R1.
  split; [reflexivity|]. split; [reflexivity|]. eapply only_io_trans; eassumption.
Qed.

(** The loop of [__wait_for_string] returns within its bound. *)
Lemma wait_loop_io bound s reply st p :
  com_port st = Some p -> is_open p = true ->
  (length (rx st) < bound)%nat ->
  exists b st', wait_loop bound s reply st = (Return b, st') /\
                only_io (timeout p) st st'.
Proof.
  revert reply st. induction bound as [|n IH]; intros reply st Hc Ho Hb; [lia|].
  simpl. destruct (PyStr.contains s reply).
  - exists true, st. split; [reflexivity | apply only_io_refl].
  - destruct (get_reply_io st p Hc Ho) as (st1 & E1 & R1 & I1).
    rewrite (bind_Return _ _ _ _ _ E1).
    destruct (PyStr.truthy (parse_line (hd "" (rx st)))) eqn:T; simpl.
    + destruct (IH (parse_line (hd "" (rx st))) st1) as (b & st2 & E2 & I2).
      * rewrite (io_com_port _ _ _ I1). exact Hc.
      * exact Ho.
      * rewrite R1. destruct (rx st); simpl in *; [discriminate | lia].
      * exists b, st2. split; [exact E2 | eapply only_io_trans; eassumption].
    + exists false, st1. split; [reflexivity | exact I1].
Qed.

Lemma wait_for_string_io s st p :
  com_port st = Some p -> is_open p = true ->
  exists b st', wait_for_string s st = (Return b, st') /\
                only_io (timeout p) st st'.
Proof.
  intros Hc Ho.
  destruct (get_reply_io st p Hc Ho) as (st1 & E1 & R1 & I1).
  destruct (wait_loop_io (S (length (rx st1))) s (parse_line (hd "" (rx st))) st1 p)
    as (b & st2 & E2 & I2).
  { rewrite (io_com_port _ _ _ I1). exact Hc. } { exact Ho. } { lia. }
  exists b, st2. unfold wait_for_string. rewrite (bind_Return _ _ _ _ _ E1).
  split; [exact E2 | eapply only_io_trans; eassumption].
Qed.

(** [__wait_for_string] computes [scan] on the lines to come. *)
Lemma wait_loop_scan bound s reply st p :
  com_port st = Some p -> is_open p = true ->
  (length (rx st) < bound)%nat ->
  fst (wait_loop bound s reply st) =
  Return (if PyStr.contains s reply then true
          else scan_tail s (map parse_line (rx st))).
Proof.
  revert reply st. induction bound as [|n IH]; intros reply st Hc Ho Hb; [lia|].
  simpl. destruct (PyStr.contains s reply); [reflexivity|].
  destruct (get_reply_io st p Hc Ho) as (st1 & E1 & R1 & I1).
  rewrite (bind_Return _ _ _ _ _ E1).
  destruct (rx st) as [|r rest] eqn:Hrx; simpl in *; [reflexivity|].
  destruct (PyStr.truthy (parse_line r)); simpl; [|reflexivity].
  rewrite (IH (parse_line r) st1).
  - rewrite R1. reflexivity.
  - rewrite (io_com_port _ _ _ I1). exact Hc.
  - exact Ho.
  - rewrite R1. lia.
Qed.

Lemma wait_for_string_scan s st p :
  com_port st = Some p -> is_open p = true ->
  fst (wait_for_string s st) = Return (scan s (map parse_line (rx st))).
Proof.
  intros Hc Ho.
  destruct (get_reply_io st p Hc Ho) as (st1 & E1 & R1 & I1).
  unfold wait_for_string. rewrite (bind_Return _ _ _ _ _ E1).
  rewrite (wait_loop_scan _ _ _ _ p).
  - unfold scan. rewrite R1. destruct (rx st); reflexivity.
  - rewrite (io_com_port _ _ _ I1). exact Hc.
  - exact Ho.
  - lia.
Qed.

(** The bound of the model is never what stops [__wait_for_string]. *)
Lemma wait_for_string_within_bound s st :
  fst (wait_for_string s st) <> Raise LoopBound.
Proof.
  destruct (com_port st) as [p|] eqn:Hc.
  - destruct (is_open p) eqn:Ho.
    + rewrite (wait_for_string_scan s st p Hc Ho). discriminate.
    + unfold wait_for_string, get_reply, read_until_cr, the_port, bind.
      rewrite Hc, Ho. simpl. discriminate.
  - unfold wait_for_string, get_reply, read_until_cr, the_port, bind.
    rewrite Hc. simpl. discriminate.
Qed.

(** The loop of [stats] returns within its bound. *)
Lemma stats_loop_io bound rows read_line st p :
  com_port st = Some p -> is_open p = true ->
  (length (rx st) < bound)%nat ->
  exists rows' st', stats_loop bound rows read_line st = (Return rows', st') /\
                    only_io (timeout p) st st'.
Proof.
  revert rows read_line st.
  induction bound as [|n IH]; intros rows read_line st Hc Ho Hb; [lia|].
  simpl. destruct (PyStr.truthy read_line).
  - destruct (get_reply_io st p Hc Ho) as (st1 & E1 & R1 & I1).
    rewrite (bind_Return _ _ _ _ _ E1).
    destruct (rx st) as [|r rest] eqn:Hrx.
    + simpl. destruct n; simpl; eexists _, st1; (split; [reflexivity | exact I1]).
    + destruct (IH (rows ++ [split_comma read_line])%list (parse_line (hd "" (r :: rest))) st1)
        as (rows' & st2 & E2 & I2).
      * rewrite (io_com_port _ _ _ I1). exact Hc.
      * exact Ho.
      * rewrite R1. simpl in *. lia.
      * exists rows', st2. split; [exact E2 | eapply only_io_trans; eassumption].
  - exists rows, st. split; [reflexivity | apply only_io_refl].
Qed.

(** ** Mode error: methods called outside remote mode *)

(** C2: every public method other than [enter_API] and [exit_API], called
    while [in_API] is false, returns the fixed text "ERR Not in API mode"
    with [False] and leaves the whole state as it was; in particular the
    trace of transport I/O gains no open, write, read or close. *)
Theorem mode_error_without_io (m : method) (st : state) :
  in_API st = false ->
  call m st = (Return (VStr "ERR Not in API mode", false), st).
Proof.
  intros H.
  destruct m; simpl;
    unfold audio_in, calibrate, clear_stats, custom_splash_1, custom_splash_2,
      extended_mode, frame_rate, mask_len, offset, reset_settings, set_audio_in,
      set_audio_trigger_level, ser_extended_mode, set_frame_rate, set_mask_len,
      set_offset, set_speaker_dist, set_video_trigger_level, settings,
      speaker_dist, support_code, start, start_nocal, stats, stats_avg,
      stats_count, stats_span, stats_trim, stop, get_reading;
    unfold bind at 1; unfold get_in_API; rewrite H; reflexivity.
Qed.

Lemma mode_error_without_io_witness :
  call m_stats (init "COM3" true ["1,2"]) =
  (Return (VStr "ERR Not in API mode", false), init "COM3" true ["1,2"]).
Proof. apply mode_error_without_io. reflexivity. Defined.

(** ** Mode entry followed by mode exit *)

Lemma open_port_ok st :
  openable st = true ->
  open_port st =
  (Return true,
   log EvResetInput (log (EvOpen true) (set_com_port (Some (mkSerial true 1)) st))).
Proof. intros H. unfold open_port. rewrite H. reflexivity. Qed.

Lemma open_port_failed st :
  openable st = false -> open_port st = (Return false, log (EvOpen false) st).
Proof. intros H. unfold open_port. rewrite H. reflexivity. Qed.

(** Mode entry when the port cannot be opened: nothing but the failed
    attempt happens. *)
Lemma enter_API_open_failed st :
  openable st = false -> enter_API st = (Return false, log (EvOpen false) st).
Proof.
  intros H. unfold enter_API.
  rewrite (bind_Return _ _ _ _ _ (open_port_failed st H)). reflexivity.
Qed.

(** Mode entry when the port opens: the result is the outcome of the wait
    for "OK", [in_API] is set to it, and the port stays open. *)
Lemma enter_API_opened st :
  openable st = true ->
  exists b st1, enter_API st = (Return b, st1) /\
                in_API st1 = b /\ com_port st1 = Some (mkSerial true 1).
Proof.
  intros H. unfold enter_API.
  rewrite (bind_Return _ _ _ _ _ (open_port_ok st H)).
  cbv beta. change (Bool.eqb true false) with false. cbv iota.
  set (st0 := log EvResetInput _).
  assert (Hc : com_port st0 = Some (mkSerial true 1)) by reflexivity.
  destruct (send_command_io "API" st0 _ Hc eq_refl) as (sta & Ea & _ & Ia).
  rewrite (bind_Return _ _ _ _ _ Ea).
  assert (Hca : com_port sta = Some (mkSerial true 1))
    by (rewrite (io_com_port _ _ _ Ia); exact Hc).
  destruct (wait_for_string_io "OK" sta _ Hca eq_refl) as (b & stb & Eb & Ib).
  rewrite (bind_Return _ _ _ _ _ Eb).
  assert (Hcb : com_port stb = Some (mkSerial true 1))
    by (rewrite (io_com_port _ _ _ Ib); exact Hca).
  exists b, (set_in_API b stb). destruct b; simpl; auto.
Qed.

(** Mode exit from remote mode on an open port: whatever the wait for "OK"
    returns, [in_API] is false and the port is closed afterwards. *)
Lemma exit_API_live st p :
  live p st ->
  exists b st', exit_API st = (Return (VStr "OK", b), st') /\
                in_API st' = false /\ transport_closed st' = true.
Proof.
  intros (Ha & Hc & Ho). unfold exit_API.
  unfold bind at 1. unfold get_in_API. rewrite Ha.
  destruct (send_command_io "EXIT" st p Hc Ho) as (sta & Ea & _ & Ia).
  rewrite (bind_Return _ _ _ _ _ Ea).
  unfold bind at 1. unfold put_in_API.
  assert (Hca : com_port (set_in_API false sta) = Some p)
    by (simpl; rewrite (io_com_port _ _ _ Ia); exact Hc).
  destruct (wait_for_string_io "OK" _ p Hca Ho) as (b & stb & Eb & Ib).
  rewrite (bind_Return _ _ _ _ _ Eb).
  assert (Hcb : com_port stb = Some p)
    by (rewrite (io_com_port _ _ _ Ib); exact Hca).
  assert (Hab : in_API stb = false) by (rewrite (io_in_API _ _ _ Ib); reflexivity).
  unfold close_port, close, the_port, bind, ret. rewrite Hcb. simpl.
  eexists _, _. split; [reflexivity|]. simpl. split; [exact Hab | reflexivity].
Qed.

(** C1 (as amended): after [enter_API] and then [exit_API] on a session
    whose flag and transport agree, both calls return, [in_API] is false,
    and the transport is closed whenever the port could not be opened or
    the entry was acknowledged, whether or not the exit is acknowledged. *)
Theorem enter_then_exit (st : state) :
  consistent st ->
  exists r1 st1 r2 st2,
    enter_API st = (Return r1, st1) /\
    exit_API st1 = (Return r2, st2) /\
    in_API st2 = false /\
    (openable st = false \/ r1 = true -> transport_closed st2 = true).
Proof.
  intros (Hlive & Hcl). destruct (openable st) eqn:Hop.
  - destruct (enter_API_opened st Hop) as (b & st1 & E1 & A1 & C1).
    destruct b.
    + destruct (exit_API_live st1 (mkSerial true 1)) as (b2 & st2 & E2 & A2 & C2).
      { repeat split; assumption. }
      exists true, st1, (VStr "OK", b2), st2. repeat split; auto.
    + exists false, st1, (VStr "ERR Not in API mode", false), st1.
      split; [exact E1|]. split.
      * unfold exit_API. rewrite guard_in_API, A1. reflexivity.
      * split; [exact A1|]. intros [H|H]; discriminate.
  - set (st1 := log (EvOpen false) st).
    assert (E1 : enter_API st = (Return false, st1))
      by (apply enter_API_open_failed; exact Hop).
    destruct (in_API st) eqn:Ha.
    + destruct (Hlive eq_refl) as (p & _ & Hc & Ho).
      destruct (exit_API_live st1 p) as (b2 & st2 & E2 & A2 & C2).
      { repeat split; assumption. }
      exists false, st1, (VStr "OK", b2), st2. repeat split; auto.
    + exists false, st1, (VStr "ERR Not in API mode", false), st1.
      split; [exact E1|]. split.
      * unfold exit_API. rewrite guard_in_API. subst st1. simpl. rewrite Ha.
        reflexivity.
      * split; [exact Ha|]. intros _. exact (Hcl eq_refl).
Qed.

Lemma enter_then_exit_witness :
  exists r1 st1 r2 st2,
    enter_API (init "COM3" true ["OK"]) = (Return r1, st1) /\
    exit_API st1 = (Return r2, st2) /\
    in_API st2 = false /\
    (openable (init "COM3" true ["OK"]) = false \/ r1 = true ->
     transport_closed st2 = true).
Proof.
  apply enter_then_exit. split; [discriminate | reflexivity].
Defined.

(** C1 (as stated) fails: the port opens, no "OK" arrives, [enter_API]
    returns [False] with the port left open, and [exit_API] then refuses
    to act outside remote mode, so the transport stays open. *)
Lemma enter_then_exit_port_left_open :
  let st0 := init "COM3" true [] in
  let st1 := snd (enter_API st0) in
  let st2 := snd (exit_API st1) in
  fst (enter_API st0) = Return false /\
  fst (exit_API st1) = Return (VStr "ERR Not in API mode", false) /\
  in_API st2 = false /\
  transport_closed st2 = false.
Proof. repeat split; reflexivity. Qed.

(** ** Widened timeout of [calibrate] and [start] *)

(** [__wait_for_string] starts with a read. *)
Lemma wait_for_string_reads s st p :
  com_port st = Some p -> is_open p = true ->
  exists b st' evs,
    wait_for_string s st = (Return b, st') /\ only_io (timeout p) st st' /\
    trace st' = (trace st ++ EvRead (timeout p) (hd "" (rx st)) :: evs)%list.
Proof.
  intros Hc Ho.
  assert (E1 : get_reply st =
               (Return (parse_line (hd "" (rx st))),
                log (EvRead (timeout p) (hd "" (rx st))) (set_rx (tl (rx st)) st))).
  { unfold get_reply, read_until_cr, the_port, bind, ret. rewrite Hc, Ho. reflexivity. }
  set (st1 := log _ _) in E1.
  destruct (wait_loop_io (S (length (rx st1))) s (parse_line (hd "" (rx st))) st1 p)
    as (b & st2 & E2 & I2); [exact Hc | exact Ho | lia |].
  destruct (wait_for_string_io s st p Hc Ho) as (b' & st' & E & I).
  unfold wait_for_string in E. rewrite (bind_Return _ _ _ _ _ E1) in E.
  rewrite E2 in E. injection E as <- <-.
  destruct (io_trace _ _ _ I2) as (evs & T & _).
  exists b, st2, evs. split.
  - unfold wait_for_string. rewrite (bind_Return _ _ _ _ _ E1). exact E2.
  - split; [exact I|]. rewrite T. subst st1. simpl. rewrite <- app_assoc. reflexivity.
Qed.

Lemma set_timeout_eq t st p :
  com_port st = Some p ->
  set_timeout t st = (Return tt, set_com_port (Some (mkSerial (is_open p) t)) st).
Proof. intros H. unfold set_timeout, the_port, bind. rewrite H. reflexivity. Qed.

Lemma bind_assoc {A B C} (m : M A) (f : A -> M B) (g : B -> M C) st :
  bind (bind m f) g st = bind m (fun x => bind (f x) g) st.
Proof. unfold bind. destruct (m st) as [[a|e] st1]; reflexivity. Qed.

(** The shape shared by the two methods once the timeout is 10: talk to
    the device, restore the timeout, build the result. *)
Lemma widened_body {A} (io : M A) (k : A -> M (value * bool)) st :
  com_port st = Some (mkSerial true 10) ->
  (exists a st1 evs d,
     io st = (Return a, st1) /\ com_port st1 = Some (mkSerial true 10) /\
     trace st1 = (trace st ++ evs)%list /\ Forall (read_under 10) evs /\
     In (EvRead 10 d) evs) ->
  (forall a st0, exists r, k a st0 = (Return r, st0)) ->
  exists r st' evs,
    (a <- io ;; set_timeout 1 ;; k a) st = (Return r, st') /\
    com_port st' = Some (mkSerial true 1) /\
    trace st' = (trace st ++ evs)%list /\
    Forall (read_under 10) evs /\
    (exists d, In (EvRead 10 d) evs).
Proof.
  intros Hc (a & stb & evs & d & Eb & Cb & Tb & Fb & Ib) Hk.
  rewrite (bind_Return _ _ _ _ _ Eb).
  rewrite (bind_Return _ _ _ _ _ (set_timeout_eq 1 stb _ Cb)). cbv beta. simpl is_open.
  destruct (Hk a (set_com_port (Some (mkSerial true 1)) stb)) as (r & Er).
  exists r, (set_com_port (Some (mkSerial true 1)) stb), evs.
  split; [exact Er|]. split; [reflexivity|]. split; [exact Tb|].
  split; [exact Fb|]. exists d. exact Ib.
Qed.

(** A command, one reply or none, then [__wait_for_string], on a port
    with timeout 10: the reads are made under that timeout. *)
Lemma send_wait_under_10 {A} (io : M A) s st a st1 :
  com_port st = Some (mkSerial true 10) ->
  io st = (Return a, st1) -> only_io 10 st st1 ->
  exists b st2 evs d,
    wait_for_string s st1 = (Return b, st2) /\
    com_port st2 = Some (mkSerial true 10) /\
    trace st2 = (trace st ++ evs)%list /\ Forall (read_under 10) evs /\
    In (EvRead 10 d) evs.
Proof.
  intros H0 Eb Ib.
  assert (Hcb : com_port st1 = Some (mkSerial true 10))
    by (rewrite (io_com_port _ _ _ Ib); exact H0).
  destruct (wait_for_string_reads s st1 _ Hcb eq_refl)
    as (b & stc & evs & Ec & Ic & Tc).
  destruct (io_trace _ _ _ Ib) as (evb & Tb & Fb).
  destruct (io_trace _ _ _ (only_io_trans _ _ _ _ Ib Ic)) as (ev & T & F).
  exists b, stc, ev, (hd "" (rx st1)).
  split; [exact Ec|].
  split; [rewrite (io_com_port _ _ _ Ic); exact Hcb|].
  split; [exact T|]. split; [exact F|].
  assert (X : (trace st ++ ev = trace st ++ evb ++ EvRead 10 (hd "" (rx st1)) :: evs)%list).
  { rewrite <- T, Tc, Tb, <- app_assoc. reflexivity. }
  apply app_inv_head in X. rewrite X. apply in_or_app. right. left. reflexivity.
Qed.

Lemma calibrate_widened st p : live p st -> widened_call calibrate st.
Proof.
  intros (Ha & Hc & Ho). unfold calibrate. unfold widened_call.
  rewrite guard_in_API, Ha.
  rewrite (bind_Return _ _ _ _ _ (set_timeout_eq 10 st p Hc)). rewrite Ho.
  set (sta := set_com_port _ st).
  change (trace st) with (trace sta).
  rewrite <- (bind_assoc (send_command "CALIBRATE") (fun _ => wait_for_string "OK")
                (fun reply => set_timeout 1 ;; ret (VStr "OK", reply))).
  apply widened_body; [reflexivity | | intros a st0; eexists; reflexivity].
  destruct (send_command_io "CALIBRATE" sta _ eq_refl eq_refl) as (stb & Eb & Rb & Ib).
  destruct (send_wait_under_10 _ "OK" sta _ _ eq_refl Eb Ib)
    as (b & st2 & evs & d & E & H).
  exists b, st2, evs, d. rewrite (bind_Return _ _ _ _ _ Eb). split; [exact E | exact H].
Qed.

Lemma start_widened st p : live p st -> widened_call start st.
Proof.
  intros (Ha & Hc & Ho). unfold start. unfold widened_call.
  rewrite guard_in_API, Ha.
  rewrite (bind_Return _ _ _ _ _ (set_timeout_eq 10 st p Hc)). rewrite Ho.
  set (sta := set_com_port _ st).
  change (trace st) with (trace sta).
  destruct (commmand_and_reply_io "START" sta _ eq_refl eq_refl) as (stb & Eb & Rb & Ib).
  destruct (send_wait_under_10 _ "START" sta _ _ eq_refl Eb Ib)
    as (b & st2 & evs & d & E & C2 & T & F & I).
  rewrite (bind_Return _ _ _ _ _ Eb). cbv beta.
  rewrite (bind_Return _ _ _ _ _ E).
  rewrite (bind_Return _ _ _ _ _ (set_timeout_eq 1 st2 _ C2)). simpl is_open.
  exists (VStr (parse_line (hd "" (rx sta))),
          negb (PyStr.contains "ERR" (parse_line (hd "" (rx sta))))),
    (set_com_port (Some (mkSerial true 1)) st2), evs.
  split.
  { unfold err_checked, ret.
    destruct (negb (PyStr.contains "ERR" (parse_line (hd "" (rx sta))))); reflexivity. }
  split; [reflexivity|]. split; [exact T|]. split; [exact F|]. exists d. exact I.
Qed.

(** C5: [calibrate] and plain [start], called in remote mode, always
    return; every read they make is made under timeout 10 (and they make
    one at least), and when they return the timeout is 1 again, whatever
    the device answered or failed to answer. *)
Theorem timeout_widened_and_restored (st : state) (p : Serial) :
  live p st -> widened_call calibrate st /\ widened_call start st.
Proof.
  intros H. split; [eapply calibrate_widened | eapply start_widened]; exact H.
Qed.

Lemma timeout_widened_and_restored_witness :
  widened_call calibrate (in_session []) /\ widened_call start (in_session []).
Proof.
  apply (timeout_widened_and_restored (in_session []) (mkSerial true 1)).
  repeat split; reflexivity.
Defined.

(** ** Status-only commands *)

(** When the first reply already holds the token, [__wait_for_string]
    returns [True] after that one read. *)
Lemma wait_for_string_first s st p :
  com_port st = Some p -> is_open p = true ->
  PyStr.contains s (parse_line (hd "" (rx st))) = true ->
  exists st', wait_for_string s st = (Return true, st') /\ only_io (timeout p) st st'.
Proof.
  intros Hc Ho Hs.
  destruct (get_reply_io st p Hc Ho) as (st1 & E1 & R1 & I1).
  exists st1. unfold wait_for_string. rewrite (bind_Return _ _ _ _ _ E1).
  simpl. rewrite Hs. split; [reflexivity | exact I1].
Qed.

(** A reply equal to "OK" makes each of the four commands report success. *)
Lemma status_only_OK st p :
  live p st -> parse_line (hd "" (rx st)) = "OK" ->
  fst (clear_stats st) = Return (VStr "OK", true) /\
  fst (reset_settings st) = Return (VStr "OK", true) /\
  fst (stop st) = Return (VStr "OK", true) /\
  fst (stats_trim st) = Return (VStr "OK", true).
Proof.
  intros (Ha & Hc & Ho) Hr.
  assert (W : forall cmd, exists st',
             (send_command cmd ;; wait_for_string "OK") st = (Return true, st')).
  { intros cmd. destruct (send_command_io cmd st p Hc Ho) as (sta & Ea & Ra & Ia).
    destruct (wait_for_string_first "OK" sta p) as (stb & Eb & _).
    - rewrite (io_com_port _ _ _ Ia). exact Hc.
    - exact Ho.
    - rewrite Ra, Hr. reflexivity.
    - exists stb. rewrite (bind_Return _ _ _ _ _ Ea). exact Eb. }
  assert (R : forall cmd, exists st',
             commmand_and_reply cmd st = (Return "OK", st')).
  { intros cmd. destruct (commmand_and_reply_io cmd st p Hc Ho) as (sta & Ea & _).
    exists sta. rewrite Ea, Hr. reflexivity. }
  repeat split.
  - unfold clear_stats. rewrite guard_in_API, Ha.
    destruct (W "CLEAR STATS") as (st' & E).
    rewrite <- bind_assoc, (bind_Return _ _ _ _ _ E). reflexivity.
  - unfold reset_settings. rewrite guard_in_API, Ha.
    destruct (R "RESET SETTINGS") as (st' & E).
    rewrite (bind_Return _ _ _ _ _ E). reflexivity.
  - unfold stop. rewrite guard_in_API, Ha.
    destruct (W "STOP") as (st' & E).
    rewrite <- bind_assoc, (bind_Return _ _ _ _ _ E). reflexivity.
  - unfold stats_trim. rewrite guard_in_API, Ha.
    destruct (R "STATS TRIM") as (st' & E).
    rewrite (bind_Return _ _ _ _ _ E). reflexivity.
Qed.

(** [stats_trim] hands an error reply back verbatim with [False]. *)
Lemma stats_trim_ERR st p :
  live p st -> PyStr.contains "ERR" (parse_line (hd "" (rx st))) = true ->
  fst (stats_trim st) = Return (VStr (parse_line (hd "" (rx st))), false).
Proof.
  intros (Ha & Hc & Ho) Hr. unfold stats_trim. rewrite guard_in_API, Ha.
  destruct (commmand_and_reply_io "STATS TRIM" st p Hc Ho) as (sta & Ea & _).
  rewrite (bind_Return _ _ _ _ _ Ea). unfold err_checked. rewrite Hr. reflexivity.
Qed.

(** [reset_settings] and [stop] report success whatever the device
    replied. *)
Lemma reset_settings_ignores_reply st p :
  live p st -> fst (reset_settings st) = Return (VStr "OK", true).
Proof.
  intros (Ha & Hc & Ho). unfold reset_settings. rewrite guard_in_API, Ha.
  destruct (commmand_and_reply_io "RESET SETTINGS" st p Hc Ho) as (sta & Ea & _).
  rewrite (bind_Return _ _ _ _ _ Ea). reflexivity.
Qed.


(** C3 (the error half fails on three of the four commands): with the
    reply "ERR unknown command", [reset_settings] and [stop] return
    ("OK", True), and [clear_stats] returns ("OK", False): the first two
    report success, and none of the three returns the reply text. *)
Theorem status_only_error_reply_lost :
  let st := in_session ["ERR unknown command" ++ CR] in
  PyStr.contains "ERR" (parse_line (hd "" (rx st))) = true /\
  fst (reset_settings st) = Return (VStr "OK", true) /\
  fst (stop st) = Return (VStr "OK", true) /\
  fst (clear_stats st) = Return (VStr "OK", false) /\
  fst (stats_trim st) = Return (VStr "ERR unknown command", false).
Proof. repeat split; reflexivity. Qed.

(** ** The scan of [__wait_for_string] at mode entry *)

(** An empty first read is not looked at: the scan goes on to the next
    read and succeeds when that one holds the token. *)
Lemma wait_for_string_first_empty s st p r1 r2 rest :
  com_port st = Some p -> is_open p = true ->
  rx st = r1 :: r2 :: rest ->
  parse_line r1 = "" -> PyStr.contains s "" = false ->
  PyStr.truthy (parse_line r2) = true ->
  PyStr.contains s (parse_line r2) = true ->
  exists st', wait_for_string s st = (Return true, st') /\ rx st' = rest.
Proof.
  intros Hc Ho Hrx H1 Hs H2t H2.
  destruct (get_reply_io st p Hc Ho) as (st1 & E1 & R1 & I1).
  destruct (get_reply_io st1 p) as (st2 & E2 & R2 & I2).
  { rewrite (io_com_port _ _ _ I1). exact Hc. } { exact Ho. }
  assert (Hh : hd "" (rx st) = r1) by (rewrite Hrx; reflexivity).
  assert (Ht : rx st1 = r2 :: rest) by (rewrite R1, Hrx; reflexivity).
  rewrite Hh, H1 in E1. rewrite Ht in E2, R2. cbn [hd tl] in E2, R2.
  exists st2. unfold wait_for_string. rewrite (bind_Return _ _ _ _ _ E1).
  rewrite Ht. cbn [length wait_loop]. rewrite Hs.
  rewrite (bind_Return _ _ _ _ _ E2). rewrite H2t. cbn [negb].
  destruct (length rest); cbn [wait_loop]; rewrite H2; split; auto.
Qed.

(** C6 (the last clause fails): the port opens, the first read after
    "API" times out empty, the second read is "OK"; [enter_API] does not
    stop at the empty line, reads again and returns [True]. *)
Theorem enter_API_reads_past_first_empty_line :
  let st := init "COM3" true [""; "OK" ++ CR] in
  fst (enter_API st) = Return true /\
  in_API (snd (enter_API st)) = true /\
  trace (snd (enter_API st)) =
    [EvOpen true; EvResetInput; EvWrite ("API" ++ CR);
     EvRead 1 ""; EvRead 1 ("OK" ++ CR)].
Proof. repeat split; reflexivity. Qed.

(** ** Table query *)

(** C4 (as amended): when the first line read after "STATS" holds "ERR",
    [stats] reads no further, returns that line with [False], and no row. *)
Theorem stats_error_first_line (st : state) (p : Serial) :
  live p st ->
  PyStr.contains "ERR" (parse_line (hd "" (rx st))) = true ->
  exists st',
    stats st = (Return (VStr (parse_line (hd "" (rx st))), false), st') /\
    rx st' = tl (rx st).
Proof.
  intros (Ha & Hc & Ho) He. unfold stats. rewrite guard_in_API, Ha.
  destruct (commmand_and_reply_io "STATS" st p Hc Ho) as (st1 & E1 & R1 & _).
  unfold commmand_and_reply in E1. exists st1.
  rewrite <- bind_assoc, (bind_Return _ _ _ _ _ E1). rewrite He.
  split; [reflexivity | exact R1].
Qed.

Lemma stats_error_first_line_witness :
  exists st',
    stats (in_session ["ERR no stats" ++ CR]) =
      (Return (VStr (parse_line (hd "" (rx (in_session ["ERR no stats" ++ CR])))), false), st') /\
    rx st' = tl (rx (in_session ["ERR no stats" ++ CR])).
Proof.
  apply (stats_error_first_line _ (mkSerial true 1)); repeat split; reflexivity.
Defined.

(** C4 (as stated) fails: "ERR" in the second line does not abort the
    read; the line becomes a row and [stats] returns two rows with [True]. *)
Lemma stats_error_marker_in_later_line :
  let st := in_session ["1,2,3,4,5,6,E,S,O" ++ CR; "1,2,3,4,5,6,ERR" ++ CR; CR] in
  PyStr.contains "ERR" (parse_line (nth 1 (rx st) "")) = true /\
  fst (stats st) =
    Return (VList
      [VList [VFloat (FFinite (Qmake 1 1)); VFloat (FFinite (Qmake 2 1));
              VFloat (FFinite (Qmake 3 1)); VFloat (FFinite (Qmake 4 1));
              VFloat (FFinite (Qmake 5 1)); VFloat (FFinite (Qmake 6 1));
              VStr "E"; VStr "S"; VStr "O"];
       VList [VFloat (FFinite (Qmake 1 1)); VFloat (FFinite (Qmake 2 1));
              VFloat (FFinite (Qmake 3 1)); VFloat (FFinite (Qmake 4 1));
              VFloat (FFinite (Qmake 5 1)); VFloat (FFinite (Qmake 6 1));
              VStr "ERR"]], true).
Proof. split; reflexivity. Qed.

(** ** Settings snapshot *)

(** C7: in remote mode, when the reply to "SETTINGS" is
    "SN123,2.2.4,60,0,1.5,5,AUTO,30,4,4", [settings] returns with [True] the
    ten fields: at 2, 3, 5, 7, 8, 9 the integers 60, 0, 5, 30, 4, 4; at 4
    the real 1.5 (the rational 3/2); at 0, 1, 6 the texts unchanged. *)
Theorem settings_example (st : state) (p : Serial) :
  live p st ->
  parse_line (hd "" (rx st)) = "SN123,2.2.4,60,0,1.5,5,AUTO,30,4,4" ->
  exists st',
    settings st =
      (Return (VList [VStr "SN123"; VStr "2.2.4"; VInt 60; VInt 0;
                      VFloat (FFinite (Qmake 3 2)); VInt 5; VStr "AUTO";
                      VInt 30; VInt 4; VInt 4], true), st') /\
    rx st' = tl (rx st).
Proof.
  intros (Ha & Hc & Ho) Hr. unfold settings. rewrite guard_in_API, Ha.
  destruct (commmand_and_reply_io "SETTINGS" st p Hc Ho) as (st1 & E1 & R1 & _).
  exists st1. rewrite (bind_Return _ _ _ _ _ E1). rewrite Hr.
  split; [reflexivity | exact R1].
Qed.

Lemma settings_example_witness :
  exists st',
    settings (in_session ["SN123,2.2.4,60,0,1.5,5,AUTO,30,4,4" ++ CR]) =
      (Return (VList [VStr "SN123"; VStr "2.2.4"; VInt 60; VInt 0;
                      VFloat (FFinite (Qmake 3 2)); VInt 5; VStr "AUTO";
                      VInt 30; VInt 4; VInt 4], true), st') /\
    rx st' = tl (rx (in_session ["SN123,2.2.4,60,0,1.5,5,AUTO,30,4,4" ++ CR])).
Proof.
  apply (settings_example _ (mkSerial true 1)); repeat split; reflexivity.
Defined.

(** ** Single reading *)

(** C9: in remote mode, when the one read of [get_reading] yields no data
    (a timeout, or a bare terminator), the method returns [(None, False)]:
    no exception, no error text; it has sent nothing and read once. *)
Theorem get_reading_no_data (st : state) (p : Serial) :
  live p st ->
  parse_line (hd "" (rx st)) = "" ->
  exists st',
    get_reading st = (Return (VNone, false), st') /\
    trace st' = (trace st ++ [EvRead (timeout p) (hd "" (rx st))])%list.
Proof.
  intros (Ha & Hc & Ho) Hr. unfold get_reading. rewrite guard_in_API, Ha.
  assert (E1 : get_reply st =
               (Return (parse_line (hd "" (rx st))),
                log (EvRead (timeout p) (hd "" (rx st))) (set_rx (tl (rx st)) st))).
  { unfold get_reply, read_until_cr, the_port, bind, ret. rewrite Hc, Ho. reflexivity. }
  eexists. rewrite (bind_Return _ _ _ _ _ E1). rewrite Hr.
  split; reflexivity.
Qed.

Lemma get_reading_no_data_witness :
  exists st',
    get_reading (in_session []) = (Return (VNone, false), st') /\
    trace st' = (trace (in_session []) ++ [EvRead 1 ""])%list.
Proof.
  apply (get_reading_no_data (in_session []) (mkSerial true 1));
    repeat split; reflexivity.
Defined.

(** ** Rows of the table *)

Lemma nth_error_set_nth_ne {A} (l : list A) i j a :
  i <> j -> nth_error (set_nth j a l) i = nth_error l i.
Proof.
  revert i j. induction l as [|h t IH]; intros [|i] [|j] H; simpl; auto;
    try congruence.
Qed.

Lemma nth_error_set_nth_eq {A} (l : list A) i a :
  (i < length l)%nat -> nth_error (set_nth i a l) i = Some a.
Proof.
  revert i. induction l as [|h t IH]; intros [|i] H; simpl in *; auto; try lia.
  apply IH. lia.
Qed.

Lemma length_set_nth {A} (l : list A) i a : length (set_nth i a l) = length l.
Proof.
  revert i. induction l as [|h t IH]; intros [|i]; simpl; auto.
Qed.

Lemma numeric_row_truthy line : numeric_row line = true -> PyStr.truthy line = true.
Proof.
  destruct line; [discriminate | reflexivity].
Qed.

(** The inner loop of [stats] on a text row with six numeric fields in
    front. *)
Lemma convert_row_numeric line :
  numeric_row line = true ->
  exists row, convert_cols (seq 0 6) (split_comma line) = Return row /\
              parsed_row (PyStr.split "," line) row.
Proof.
  unfold numeric_row, split_comma. intros H. apply andb_prop in H as [Hl Hf].
  apply Nat.leb_le in Hl.
  destruct (PyStr.split "," line) as [|a0 [|a1 [|a2 [|a3 [|a4 [|a5 rest]]]]]];
    simpl in Hl; try lia.
  simpl in Hf.
  destruct (PyFloat.parse_float a0) as [f0|] eqn:E0; [|discriminate].
  destruct (PyFloat.parse_float a1) as [f1|] eqn:E1; [|discriminate].
  destruct (PyFloat.parse_float a2) as [f2|] eqn:E2; [|discriminate].
  destruct (PyFloat.parse_float a3) as [f3|] eqn:E3; [|discriminate].
  destruct (PyFloat.parse_float a4) as [f4|] eqn:E4; [|discriminate].
  destruct (PyFloat.parse_float a5) as [f5|] eqn:E5; [|discriminate].
  exists (VFloat f0 :: VFloat f1 :: VFloat f2 :: VFloat f3 :: VFloat f4 :: VFloat f5
          :: map VStr rest).
  split.
  - simpl. unfold convert_at. simpl. rewrite E0. simpl. rewrite E1. simpl.
    rewrite E2. simpl. rewrite E3. simpl. rewrite E4. simpl. rewrite E5. reflexivity.
  - split; [simpl; rewrite length_map; reflexivity|].
    intros i s Hi.
    destruct i as [|[|[|[|[|[|i]]]]]]; simpl in *;
      try (injection Hi as <-; eexists; split; [eassumption | reflexivity]).
    apply map_nth_error. exact Hi.
Qed.

(** C8: in remote mode, when the reads after "STATS" are two rows whose
    first six comma-separated fields are numbers (the first row free of
    "ERR") and then an empty line, [stats] returns [True] with exactly two
    rows; each row has as many fields as its line, the first six as the
    reals they denote and the others as the text they were. *)
Theorem stats_two_rows (st : state) (p : Serial) (r1 r2 : string) (rest : list string) :
  live p st ->
  rx st = r1 :: r2 :: rest ->
  numeric_row (parse_line r1) = true ->
  numeric_row (parse_line r2) = true ->
  PyStr.contains "ERR" (parse_line r1) = false ->
  parse_line (hd "" rest) = "" ->
  exists row1 row2 st',
    stats st = (Return (VList [VList row1; VList row2], true), st') /\
    parsed_row (PyStr.split "," (parse_line r1)) row1 /\
    parsed_row (PyStr.split "," (parse_line r2)) row2 /\
    rx st' = tl rest.
Proof.
  intros (Ha & Hc & Ho) Hrx N1 N2 He Hend.
  destruct (convert_row_numeric _ N1) as (row1 & C1 & P1).
  destruct (convert_row_numeric _ N2) as (row2 & C2 & P2).
  unfold stats. rewrite guard_in_API, Ha.
  destruct (commmand_and_reply_io "STATS" st p Hc Ho) as (st1 & E1 & R1 & I1).
  unfold commmand_and_reply in E1.
  rewrite <- bind_assoc, (bind_Return _ _ _ _ _ E1).
  rewrite Hrx in R1 |- *. cbn [hd tl] in R1 |- *. rewrite He. cbn [negb].
  assert (Hc1 : com_port st1 = Some p) by (rewrite (io_com_port _ _ _ I1); exact Hc).
  destruct (get_reply_io st1 p Hc1 Ho) as (st2 & E2 & R2 & I2).
  assert (Hc2 : com_port st2 = Some p) by (rewrite (io_com_port _ _ _ I2); exact Hc1).
  destruct (get_reply_io st2 p Hc2 Ho) as (st3 & E3 & R3 & I3).
  rewrite R1 in E2, R2. cbn [hd tl] in E2, R2. rewrite R2 in E3, R3.
  rewrite Hend in E3.
  exists row1, row2, st3.
  split; [|split; [exact P1 | split; [exact P2 | exact R3]]].
  unfold bind at 1. rewrite R1. cbn [length stats_loop].
  rewrite (numeric_row_truthy _ N1).
  rewrite (bind_Return _ _ _ _ _ E2). rewrite (numeric_row_truthy _ N2).
  rewrite (bind_Return _ _ _ _ _ E3). cbn [app].
  assert (L : forall n rows, stats_loop n rows "" st3 = (Return rows, st3))
    by (intros [|n] rows; reflexivity).
  rewrite L. unfold bind, lift, ret. cbn [convert_rows]. rewrite C1, C2. reflexivity.
Qed.

Lemma stats_two_rows_witness :
  exists row1 row2 st',
    stats (in_session ["12,0.5,11,0.46,3,0.1,E,S,O" ++ CR;
                       "-4,-.2,10,4e-1,16,0.7,,," ++ CR; CR]) =
      (Return (VList [VList row1; VList row2], true), st') /\
    parsed_row (PyStr.split "," (parse_line ("12,0.5,11,0.46,3,0.1,E,S,O" ++ CR))) row1 /\
    parsed_row (PyStr.split "," (parse_line ("-4,-.2,10,4e-1,16,0.7,,," ++ CR))) row2 /\
    rx st' = tl [CR].
Proof.
  apply (stats_two_rows _ (mkSerial true 1)); try reflexivity.
  repeat split; reflexivity.
Defined.

(** ** Malformed numbers in scalar and tuple replies *)

(** On text, a conversion returns the number or raises [ValueError]. *)
Lemma conv_text k s :
  conv k (VStr s) =
  if well_formed k s then conv k (VStr s) else Raise ValueError.
Proof.
  destruct k; simpl; [destruct (PyStr.parse_int s) | destruct (PyFloat.parse_float s)];
    reflexivity.
Qed.

Lemma conv_text_cases k s :
  conv k (VStr s) = Raise ValueError \/ exists v, conv k (VStr s) = Return v.
Proof.
  destruct k; simpl; [destruct (PyStr.parse_int s) | destruct (PyFloat.parse_float s)];
    eauto.
Qed.

(** Converting the positions of an ascending schema in a list whose
    entries at those positions are still text: a malformed field raises
    [ValueError], since every position before it exists and either
    converts or raises [ValueError] itself. *)
Lemma convert_schema_malformed schema l i k s :
  StronglySorted lt (map fst schema) ->
  (forall j kj v, In (j, kj) schema -> nth_error l j = Some v -> exists t, v = VStr t) ->
  In (i, k) schema -> nth_error l i = Some (VStr s) -> well_formed k s = false ->
  convert_schema schema l = Raise ValueError.
Proof.
  revert l. induction schema as [|[j kj] schema IH]; intros l Hs Ht Hin Hi Hw;
    [destruct Hin|].
  simpl in Hs. apply StronglySorted_inv in Hs as [Hs Hlt].
  simpl. unfold convert_at. destruct Hin as [Heq|Hin].
  - injection Heq as -> ->. rewrite Hi, conv_text, Hw. reflexivity.
  - assert (Hji : (j < i)%nat).
    { rewrite Forall_forall in Hlt. apply Hlt.
      change i with (fst (i, k)). apply in_map. exact Hin. }
    assert (Hlen : (i < length l)%nat) by (apply nth_error_Some; congruence).
    destruct (nth_error l j) as [v|] eqn:Ej;
      [|apply nth_error_None in Ej; lia].
    destruct (Ht j kj v (or_introl eq_refl) Ej) as (t & ->).
    destruct (conv_text_cases kj t) as [-> | (v' & ->)]; [reflexivity|].
    apply IH; auto.
    + intros j' kj' v0 Hin' Hn.
      assert (j < j')%nat.
      { rewrite Forall_forall in Hlt. apply Hlt.
        change j' with (fst (j', kj')). apply in_map. exact Hin'. }
      rewrite nth_error_set_nth_ne in Hn by lia.
      eapply Ht; [right; exact Hin' | exact Hn].
    + rewrite nth_error_set_nth_ne by lia. exact Hi.
Qed.

Lemma split_comma_text reply j v :
  nth_error (split_comma reply) j = Some v -> exists t, v = VStr t.
Proof.
  unfold split_comma. intros H. apply nth_error_In, in_map_iff in H.
  destruct H as (t & <- & _). eauto.
Qed.

Lemma malformed_field_raises schema reply :
  StronglySorted lt (map fst schema) ->
  malformed_field schema (PyStr.split "," reply) ->
  convert_schema schema (split_comma reply) = Raise ValueError.
Proof.
  intros Hs (i & k & s & Hin & Hn & Hw).
  apply (convert_schema_malformed schema _ i k s); auto.
  - intros j kj v _. apply split_comma_text.
  - unfold split_comma. apply map_nth_error. exact Hn.
Qed.

(** The conversions written out in [settings] and [speaker_dist] are
    those of their schemas. *)
Lemma settings_by_schema st p :
  live p st ->
  fst (settings st) =
  match convert_schema settings_schema (split_comma (parse_line (hd "" (rx st)))) with
  | Return l => Return (VList l, true)
  | Raise e => Raise e
  end.
Proof.
  intros (Ha & Hc & Ho). unfold settings. rewrite guard_in_API, Ha.
  destruct (commmand_and_reply_io "SETTINGS" st p Hc Ho) as (st1 & E1 & _).
  rewrite (bind_Return _ _ _ _ _ E1).
  unfold settings_schema, convert_schema, conv, bind at 1, lift.
  repeat match goal with
         | |- context [convert_at ?c ?i ?l] =>
             destruct (convert_at c i l); [try unfold bind at 1 | reflexivity]
         end.
  reflexivity.
Qed.

Lemma speaker_dist_by_schema st p :
  live p st ->
  fst (speaker_dist st) =
  match convert_schema speaker_dist_schema (split_comma (parse_line (hd "" (rx st)))) with
  | Return l => Return (VList l, true)
  | Raise e => Raise e
  end.
Proof.
  intros (Ha & Hc & Ho). unfold speaker_dist. rewrite guard_in_API, Ha.
  destruct (commmand_and_reply_io "SPEAKER DIST" st p Hc Ho) as (st1 & E1 & _).
  rewrite (bind_Return _ _ _ _ _ E1).
  unfold speaker_dist_schema, convert_schema, conv, bind at 1, lift.
  repeat match goal with
         | |- context [convert_at ?c ?i ?l] =>
             destruct (convert_at c i l); [try unfold bind at 1 | reflexivity]
         end.
  reflexivity.
Qed.

Lemma schemas_ascending :
  StronglySorted lt (map fst settings_schema) /\
  StronglySorted lt (map fst speaker_dist_schema).
Proof.
  split; simpl;
    repeat (apply SSorted_cons;
            [|repeat (apply Forall_cons; [lia|]); apply Forall_nil]);
    apply SSorted_nil.
Qed.

Lemma scalar_query_raises cmd (cv : value -> outcome value) st p :
  live p st ->
  cv (VStr (parse_line (hd "" (rx st)))) = Raise ValueError ->
  fst ((reply <- commmand_and_reply cmd ;;
        reply <- lift (cv (VStr reply)) ;;
        ret (reply, true)) st) = Raise ValueError.
Proof.
  intros (Ha & Hc & Ho) Hv.
  destruct (commmand_and_reply_io cmd st p Hc Ho) as (st1 & E1 & _).
  rewrite (bind_Return _ _ _ _ _ E1). unfold bind, lift. rewrite Hv. reflexivity.
Qed.

(** C10: in remote mode, with [reply] the line read back:
    [frame_rate], [mask_len] and [stats_count] raise [ValueError] when
    [reply] is not an integer literal; [offset] raises it when [reply] is
    not a float literal; [settings] and [speaker_dist] raise it when some
    numeric position of their tuple holds a field that is not a literal of
    its kind.  A raised exception is not a returned value: nothing is
    coerced. *)
Theorem malformed_number_raises (st : state) (p : Serial) :
  live p st ->
  let reply := parse_line (hd "" (rx st)) in
  (PyStr.parse_int reply = None ->
     fst (frame_rate st) = Raise ValueError /\
     fst (mask_len st) = Raise ValueError /\
     fst (stats_count st) = Raise ValueError) /\
  (PyFloat.parse_float reply = None -> fst (offset st) = Raise ValueError) /\
  (malformed_field settings_schema (PyStr.split "," reply) ->
     fst (settings st) = Raise ValueError) /\
  (malformed_field speaker_dist_schema (PyStr.split "," reply) ->
     fst (speaker_dist st) = Raise ValueError).
Proof.
  intros H reply. pose proof H as (Ha & Hc & Ho).
  split; [|split; [|split]].
  - intros Hn.
    assert (Hv : py_int (VStr reply) = Raise ValueError)
      by (simpl; rewrite Hn; reflexivity).
    unfold frame_rate, mask_len, stats_count. rewrite !guard_in_API, Ha.
    repeat split; apply (scalar_query_raises _ py_int st p H Hv).
  - intros Hn.
    assert (Hv : py_float (VStr reply) = Raise ValueError)
      by (simpl; rewrite Hn; reflexivity).
    unfold offset. rewrite guard_in_API, Ha.
    apply (scalar_query_raises _ py_float st p H Hv).
  - intros Hm. rewrite (settings_by_schema st p H).
    fold reply. rewrite (malformed_field_raises _ _ (proj1 schemas_ascending) Hm).
    reflexivity.
  - intros Hm. rewrite (speaker_dist_by_schema st p H).
    fold reply. rewrite (malformed_field_raises _ _ (proj2 schemas_ascending) Hm).
    reflexivity.
Qed.

Lemma malformed_number_raises_witness :
  let st := in_session ["SN,2.2.4,abc" ++ CR] in
  fst (frame_rate st) = Raise ValueError /\
  fst (mask_len st) = Raise ValueError /\
  fst (stats_count st) = Raise ValueError /\
  fst (offset st) = Raise ValueError /\
  fst (settings st) = Raise ValueError /\
  fst (speaker_dist st) = Raise ValueError.
Proof.
  intros st.
  destruct (malformed_number_raises st (mkSerial true 1)) as (A & B & C & D).
  { repeat split; reflexivity. }
  destruct (A eq_refl) as (A1 & A2 & A3).
  split; [exact A1|]. split; [exact A2|]. split; [exact A3|].
  split; [exact (B eq_refl)|]. split.
  - apply C. exists 2%nat, KInt, "abc". repeat split; simpl; auto.
  - apply D. exists 2%nat, KInt, "abc". repeat split; simpl; auto.
Defined.

(** What a scalar query returns is the number its reply denotes. *)
Lemma scalar_query_returns cmd (cv : value -> outcome value) st p r :
  live p st ->
  fst ((reply <- commmand_and_reply cmd ;;
        reply <- lift (cv (VStr reply)) ;;
        ret (reply, true)) st) = Return r ->
  exists v, cv (VStr (parse_line (hd "" (rx st)))) = Return v /\ r = (v, true).
Proof.
  intros (Ha & Hc & Ho).
  destruct (commmand_and_reply_io cmd st p Hc Ho) as (st1 & E1 & _).
  rewrite (bind_Return _ _ _ _ _ E1). unfold bind, lift.
  destruct (cv _) as [v|e]; simpl; intros H; [|discriminate].
  injection H as <-. eauto.
Qed.

Lemma frame_rate_returns st p r :
  live p st -> fst (frame_rate st) = Return r ->
  exists n, PyStr.parse_int (parse_line (hd "" (rx st))) = Some n /\ r = (VInt n, true).
Proof.
  intros H. pose proof H as (Ha & _). unfold frame_rate. rewrite guard_in_API, Ha.
  intros R. destruct (scalar_query_returns _ py_int st p r H R) as (v & Hv & ->).
  simpl in Hv. destruct (PyStr.parse_int _) as [n|]; [|discriminate].
  injection Hv as <-. eauto.
Qed.

Lemma offset_returns st p r :
  live p st -> fst (offset st) = Return r ->
  exists f, PyFloat.parse_float (parse_line (hd "" (rx st))) = Some f /\ r = (VFloat f, true).
Proof.
  intros H. pose proof H as (Ha & _). unfold offset. rewrite guard_in_API, Ha.
  intros R. destruct (scalar_query_returns _ py_float st p r H R) as (v & Hv & ->).
  simpl in Hv. destruct (PyFloat.parse_float _) as [f|]; [|discriminate].
  injection Hv as <-. eauto.
Qed.

(** * Further properties *)

(** ** Frame of the guarded methods *)

Section Respect.
Variable R : state -> state -> Prop.
Hypothesis R_refl : forall st, R st st.
Hypothesis R_trans : forall s1 s2 s3, R s1 s2 -> R s2 s3 -> R s1 s3.
Hypothesis R_read : respects R read_until_cr.
Hypothesis R_write : forall d, respects R (write d).

Lemma respects_ret {A} (a : A) : respects R (ret a).
Proof. intros st o st' H. injection H as _ <-. apply R_refl. Qed.

Lemma respects_lift {A} (x : outcome A) : respects R (lift x).
Proof. intros st o st' H. injection H as _ <-. apply R_refl. Qed.

Lemma respects_raise {A} e : respects R (@raise A e).
Proof. intros st o st' H. injection H as _ <-. apply R_refl. Qed.

Lemma respects_bind {A B} (m : M A) (k : A -> M B) :
  respects R m -> (forall a, respects R (k a)) -> respects R (bind m k).
Proof.
  intros Hm Hk st o st' H. unfold bind in H.
  destruct (m st) as [[a|e] st1] eqn:E.
  - eapply R_trans; [eapply Hm; exact E | eapply Hk; exact H].
  - injection H as _ <-. eapply Hm; exact E.
Qed.

Lemma respects_at {A} (m : nat -> M A) (f : state -> nat) :
  (forall n, respects R (m n)) -> respects R (fun st => m (f st) st).
Proof. intros H st o st' E. eapply H; exact E. Qed.

Lemma respects_get_in_API : respects R get_in_API.
Proof. intros st o st' H. injection H as _ <-. apply R_refl. Qed.

Lemma respects_get_reply : respects R get_reply.
Proof.
  unfold get_reply. apply respects_bind; [exact R_read|].
  intros a. apply respects_ret.
Qed.

Lemma respects_send_command c : respects R (send_command c).
Proof. unfold send_command. apply R_write. Qed.

Lemma respects_commmand_and_reply c : respects R (commmand_and_reply c).
Proof.
  unfold commmand_and_reply. apply respects_bind.
  - apply respects_send_command.
  - intros _. apply respects_get_reply.
Qed.

Lemma respects_wait_loop n s reply : respects R (wait_loop n s reply).
Proof.
  revert reply. induction n as [|n IH]; intros reply; simpl;
    destruct (PyStr.contains s reply); try apply respects_ret.
  - apply respects_raise.
  - apply respects_bind; [apply respects_get_reply|].
    intros a. destruct (negb (PyStr.truthy a)); [apply respects_ret | apply IH].
Qed.

Lemma respects_wait_for_string s : respects R (wait_for_string s).
Proof.
  unfold wait_for_string. apply respects_bind; [apply respects_get_reply|].
  intros a. apply (respects_at (fun n => wait_loop n s a)).
  intros n. apply respects_wait_loop.
Qed.

Lemma respects_stats_loop n rows line : respects R (stats_loop n rows line).
Proof.
  revert rows line. induction n as [|n IH]; intros rows line; simpl;
    destruct (PyStr.truthy line); try apply respects_ret.
  - apply respects_raise.
  - apply respects_bind; [apply respects_get_reply|]. intros a. apply IH.
Qed.

Lemma respects_err_checked reply : respects R (err_checked reply).
Proof.
  unfold err_checked. destruct (negb _); apply respects_ret.
Qed.

Ltac respects_step :=
  first
    [ apply respects_ret
    | apply respects_lift
    | apply respects_get_in_API
    | apply respects_commmand_and_reply
    | apply respects_send_command
    | apply respects_get_reply
    | apply respects_wait_for_string
    | apply respects_err_checked
    | apply (respects_at (fun n => stats_loop n _ _)); intros ?;
      apply respects_stats_loop
    | apply respects_bind; [|intros ?]
    | match goal with
      | |- respects _ (if ?b then _ else _) => destruct b
      end ].

(** The methods that do not touch the timeout. *)
Lemma respects_call (m : method) :
  m <> m_calibrate -> m <> m_start -> respects R (call m).
Proof.
  intros H1 H2.
  destruct m as [ | | |x|x| | | | | |x|x|x|x|x|x|x|x| | | | | | | | | | | | ];
    try congruence; simpl;
    unfold audio_in, clear_stats, custom_splash_1, custom_splash_2,
      extended_mode, frame_rate, mask_len, offset, reset_settings, set_audio_in,
      set_audio_trigger_level, ser_extended_mode, set_frame_rate, set_mask_len,
      set_offset, set_speaker_dist, set_video_trigger_level, settings,
      speaker_dist, support_code, start_nocal, stats, stats_avg,
      stats_count, stats_span, stats_trim, stop, get_reading;
    cbv zeta; repeat respects_step.
Qed.

Hypothesis R_set_timeout : forall t, respects R (set_timeout t).

Lemma respects_call_any (m : method) : respects R (call m).
Proof.
  assert (Hc : respects R calibrate).
  { unfold calibrate. repeat first [apply R_set_timeout | respects_step]. }
  assert (Hs : respects R start).
  { unfold start. repeat first [apply R_set_timeout | respects_step]. }
  destruct m as [ | | |x|x| | | | | |x|x|x|x|x|x|x|x| | | | | | | | | | | | ];
    try exact Hc; try exact Hs; apply respects_call; discriminate.
Qed.
End Respect.

Lemma frame_refl st : frame st st.
Proof.
  constructor; auto.
  - exists 0%nat. reflexivity.
  - exists []. split; [now rewrite app_nil_r | reflexivity].
Qed.

Lemma frame_trans s1 s2 s3 : frame s1 s2 -> frame s2 s3 -> frame s1 s3.
Proof.
  intros [a1 b1 c1 d1 [k1 e1] [ev1 [f1 g1]]] [a2 b2 c2 d2 [k2 e2] [ev2 [f2 g2]]].
  constructor; try congruence.
  - exists (k2 + k1)%nat. rewrite e2, e1. apply skipn_skipn.
  - exists (ev1 ++ ev2)%list. split.
    + rewrite f2, f1, app_assoc. reflexivity.
    + rewrite forallb_app, g1, g2. reflexivity.
Qed.

Lemma frame_strict_refl st : frame_strict st st.
Proof. split; [apply frame_refl | reflexivity]. Qed.

Lemma frame_strict_trans s1 s2 s3 :
  frame_strict s1 s2 -> frame_strict s2 s3 -> frame_strict s1 s3.
Proof.
  intros [F1 C1] [F2 C2]. split; [eapply frame_trans; eassumption | congruence].
Qed.

Lemma read_until_cr_strict : respects frame_strict read_until_cr.
Proof.
  intros st o st'. unfold read_until_cr, the_port, bind.
  destruct (com_port st) as [p|] eqn:Hc;
    [destruct (is_open p); simpl|]; intros H; injection H as _ <-;
    try apply frame_strict_refl.
  split; [|reflexivity]. constructor; simpl; auto.
  - exists 1%nat. destruct (rx st); reflexivity.
  - eexists. split; reflexivity.
Qed.

Lemma write_strict d : respects frame_strict (write d).
Proof.
  intros st o st'. unfold write, the_port, bind.
  destruct (com_port st) as [p|] eqn:Hc;
    [destruct (is_open p); simpl|]; intros H; injection H as _ <-;
    try apply frame_strict_refl.
  split; [|reflexivity]. constructor; simpl; auto.
  - exists 0%nat. reflexivity.
  - eexists. split; reflexivity.
Qed.

Lemma respects_weaken (R R' : state -> state -> Prop) {A} (m : M A) :
  (forall s s', R s s' -> R' s s') -> respects R m -> respects R' m.
Proof. intros H Hm st o st' E. apply H. eapply Hm. exact E. Qed.

Lemma set_timeout_frame t : respects frame (set_timeout t).
Proof.
  intros st o st'. unfold set_timeout, the_port, bind.
  destruct (com_port st) as [p|] eqn:Hc; simpl; intros H; injection H as _ <-;
    try apply frame_refl.
  constructor; simpl; auto.
  - rewrite Hc. reflexivity.
  - exists 0%nat. reflexivity.
  - exists []. split; [now rewrite app_nil_r | reflexivity].
Qed.

Lemma call_respects_frame (m : method) : respects frame (call m).
Proof.
  apply respects_call_any.
  - apply frame_refl.
  - apply frame_trans.
  - apply (respects_weaken frame_strict); [intros s s' [F _]; exact F|].
    apply read_until_cr_strict.
  - intros d. apply (respects_weaken frame_strict); [intros s s' [F _]; exact F|].
    apply write_strict.
  - apply set_timeout_frame.
Qed.

Lemma call_frame_snd (m : method) (st : state) : frame st (snd (call m st)).
Proof.
  destruct (call m st) as [o st'] eqn:E. simpl.
  eapply call_respects_frame. exact E.
Qed.

(** X1: whatever the state and whether it returns or raises, a method
    other than [enter_API] and [exit_API] leaves [in_API] and the port's
    open/closed status as they were, consumes reads from the front of
    [rx] only, and adds to the trace nothing but writes and reads: it
    never opens, resets or closes the transport. *)
Theorem call_frame (m : method) (st : state) : frame st (snd (call m st)).
Proof.
  pose proof (call_respects_frame m) as R.
  destruct (call m st) as [o st'] eqn:E. simpl.
  exact (R st o st' E).
Qed.

(** X2: a method other than [calibrate] and [start] (and the two mode
    methods) leaves the port object as it was, its read timeout
    included, whether it returns or raises. *)
Theorem call_keeps_timeout (m : method) (st : state) :
  m <> m_calibrate -> m <> m_start ->
  com_port (snd (call m st)) = com_port st.
Proof.
  intros H1 H2. destruct (call m st) as [o st'] eqn:E. simpl.
  assert (F : frame_strict st st'); [|exact (proj2 F)].
  revert st o st' E. fold (respects frame_strict (call m)).
  apply respects_call; auto.
  - apply frame_strict_refl.
  - apply frame_strict_trans.
  - apply read_until_cr_strict.
  - apply write_strict.
Qed.

Lemma call_keeps_timeout_witness :
  com_port (snd (call m_start_nocal (in_session ["START" ++ CR]))) =
  com_port (in_session ["START" ++ CR]).
Proof. apply call_keeps_timeout; discriminate. Defined.

(** ** The port invariant along any run *)

Lemma port_open_frame st st' :
  frame st st' -> port_open st' = port_open st.
Proof.
  intros F. pose proof (fr_open _ _ F) as H. unfold port_open.
  destruct (com_port st'), (com_port st); simpl in H; congruence.
Qed.

Lemma exit_API_in_API st :
  port_invariant st -> in_API (snd (exit_API st)) = false.
Proof.
  intros Hinv. destruct (in_API st) eqn:Ha.
  - pose proof (Hinv Ha) as Hp. unfold port_open in Hp.
    destruct (com_port st) as [p|] eqn:Hc; [|discriminate].
    destruct (exit_API_live st p) as (b & st' & E & A & _).
    { repeat split; assumption. }
    rewrite E. exact A.
  - unfold exit_API. rewrite guard_in_API, Ha. exact Ha.
Qed.

Lemma exec_keeps_port_invariant o st :
  port_invariant st -> port_invariant (exec o st).
Proof.
  intros Hinv. destruct o as [ | |m|c more]; simpl.
  - destruct (openable st) eqn:Hop.
    + destruct (enter_API_opened st Hop) as (b & st1 & E & A & C).
      rewrite E. intros _. unfold port_open. simpl. rewrite C. reflexivity.
    + rewrite (enter_API_open_failed st Hop). exact Hinv.
  - intros H. rewrite (exit_API_in_API st Hinv) in H. discriminate.
  - pose proof (call_frame_snd m st) as F. unfold port_invariant.
    rewrite (fr_in_API _ _ F), (port_open_frame _ _ F). exact Hinv.
  - exact Hinv.
Qed.

(** X3: from a new session, after any sequence of public calls (results
    dropped, exceptions caught) interleaved with any behaviour of the
    outside world, remote mode implies an open port: [in_API] is never
    true on a missing or closed port. *)
Theorem reachable_port_invariant (ops : list op) (port : string)
    (can_open : bool) (incoming : list string) :
  port_invariant (exec_all ops (init port can_open incoming)).
Proof.
  unfold exec_all.
  assert (H : port_invariant (init port can_open incoming)) by discriminate.
  revert H. generalize (init port can_open incoming).
  induction ops as [|o ops IH]; intros st H; simpl; [exact H|].
  apply IH. apply exec_keeps_port_invariant. exact H.
Qed.

(** ** Mode entry in closed form *)


(** ** When the scan for a token succeeds *)





(** ** One command per call, sent first *)

Lemma reads_only_refl st : reads_only st st.
Proof. exists []. split; [now rewrite app_nil_r | reflexivity]. Qed.

Lemma reads_only_trans s1 s2 s3 :
  reads_only s1 s2 -> reads_only s2 s3 -> reads_only s1 s3.
Proof.
  intros (e1 & T1 & F1) (e2 & T2 & F2). exists (e1 ++ e2)%list. split.
  - rewrite T2, T1, app_assoc. reflexivity.
  - rewrite forallb_app, F1, F2. reflexivity.
Qed.

Lemma read_until_cr_reads_only : respects reads_only read_until_cr.
Proof.
  intros st o st'. unfold read_until_cr, the_port, bind.
  destruct (com_port st) as [p|] eqn:Hc;
    [destruct (is_open p); simpl|]; intros H; injection H as _ <-;
    try apply reads_only_refl.
  eexists. split; reflexivity.
Qed.

Lemma set_timeout_reads_only t : respects reads_only (set_timeout t).
Proof.
  intros st o st'. unfold set_timeout, the_port, bind.
  destruct (com_port st) as [p|] eqn:Hc; simpl; intros H; injection H as _ <-;
    (exists []; split; [simpl; now rewrite app_nil_r | reflexivity]).
Qed.

Ltac reads_only_tac :=
  repeat first
    [ apply (respects_ret reads_only reads_only_refl)
    | apply (respects_lift reads_only reads_only_refl)
    | apply (respects_get_reply reads_only reads_only_refl reads_only_trans
               read_until_cr_reads_only)
    | apply (respects_wait_for_string reads_only reads_only_refl reads_only_trans
               read_until_cr_reads_only)
    | apply (respects_err_checked reads_only reads_only_refl)
    | apply set_timeout_reads_only
    | apply (respects_at reads_only (fun n => stats_loop n _ _)); intros ?;
      apply (respects_stats_loop reads_only reads_only_refl reads_only_trans
               read_until_cr_reads_only)
    | apply (respects_bind reads_only reads_only_trans); [|intros ?]
    | match goal with
      | |- respects _ (if ?b then _ else _) => destruct b
      end ].

Lemma send_command_exact cmd st p :
  com_port st = Some p -> is_open p = true ->
  send_command cmd st = (Return tt, log (EvWrite (cmd ++ CR)) st).
Proof.
  intros Hc Ho. unfold send_command, write, the_port, bind. rewrite Hc, Ho.
  reflexivity.
Qed.

Lemma get_reply_exact st p :
  com_port st = Some p -> is_open p = true ->
  get_reply st =
  (Return (parse_line (hd "" (rx st))),
   log (EvRead (timeout p) (hd "" (rx st))) (set_rx (tl (rx st)) st)).
Proof.
  intros Hc Ho. unfold get_reply, read_until_cr, the_port, bind, ret.
  rewrite Hc, Ho. reflexivity.
Qed.

Lemma commmand_and_reply_exact cmd st p :
  com_port st = Some p -> is_open p = true ->
  commmand_and_reply cmd st =
  (Return (parse_line (hd "" (rx st))),
   log (EvRead (timeout p) (hd "" (rx st)))
     (set_rx (tl (rx st)) (log (EvWrite (cmd ++ CR)) st))).
Proof.
  intros Hc Ho. unfold commmand_and_reply.
  rewrite (bind_Return _ _ _ _ _ (send_command_exact cmd st p Hc Ho)).
  cbv beta. rewrite (get_reply_exact _ p); [reflexivity | exact Hc | exact Ho].
Qed.

Lemma sent_then {A} cmd (rest : M A) st p :
  com_port st = Some p -> is_open p = true ->
  respects reads_only rest ->
  exists reads, forallb is_read reads = true /\
    trace (snd ((send_command cmd ;; rest) st)) =
    (trace st ++ [EvWrite (cmd ++ CR)] ++ reads)%list.
Proof.
  intros Hc Ho Hr.
  rewrite (bind_Return _ _ _ _ _ (send_command_exact cmd st p Hc Ho)).
  destruct (rest _) as [o st'] eqn:E. apply Hr in E. destruct E as (evs & T & F).
  exists evs. split; [exact F|]. simpl in *. rewrite T, <- app_assoc. reflexivity.
Qed.

Lemma replied_then {A} cmd (k : string -> M A) st p :
  com_port st = Some p -> is_open p = true ->
  (forall reply, respects reads_only (k reply)) ->
  exists reads, forallb is_read reads = true /\
    trace (snd ((reply <- commmand_and_reply cmd ;; k reply) st)) =
    (trace st ++ [EvWrite (cmd ++ CR)] ++ reads)%list.
Proof.
  intros Hc Ho Hk. unfold commmand_and_reply. rewrite bind_assoc.
  apply (sent_then cmd _ st p Hc Ho). reads_only_tac. apply Hk.
Qed.

(** X6: in remote mode every method writes exactly once, first of all:
    its command text followed by a carriage return; all the I/O after it
    is reads.  [get_reading] writes nothing.  This holds whether the call
    returns or raises. *)
Theorem call_sends_once_first (m : method) (st : state) (p : Serial) :
  live p st ->
  exists reads, forallb is_read reads = true /\
    trace (snd (call m st)) =
    (trace st ++
     match command_line m with
     | Some cmd => [EvWrite (cmd ++ CR)]
     | None => []
     end ++ reads)%list.
Proof.
  intros (Ha & Hc & Ho).
  destruct m as [ | | |x|x| | | | | |x|x|x|x|x|x|x|x| | | | | | | | | | | | ];
    simpl call; cbn [command_line];
    unfold audio_in, calibrate, clear_stats, custom_splash_1, custom_splash_2,
      extended_mode, frame_rate, mask_len, offset, reset_settings, set_audio_in,
      set_audio_trigger_level, ser_extended_mode, set_frame_rate, set_mask_len,
      set_offset, set_speaker_dist, set_video_trigger_level, settings,
      speaker_dist, support_code, start, start_nocal, stats, stats_avg,
      stats_count, stats_span, stats_trim, stop, get_reading;
    cbv zeta; rewrite guard_in_API, Ha;
    try (apply (replied_then _ _ st p Hc Ho); intros reply; reads_only_tac);
    try (apply (sent_then _ _ st p Hc Ho); reads_only_tac).
  - (* calibrate *)
    rewrite (bind_Return _ _ _ _ _ (set_timeout_eq 10 st p Hc)). rewrite Ho.
    change (trace st) with (trace (set_com_port (Some (mkSerial true 10)) st)).
    apply (sent_then _ _ _ (mkSerial true 10)); try reflexivity. reads_only_tac.
  - (* start *)
    rewrite (bind_Return _ _ _ _ _ (set_timeout_eq 10 st p Hc)). rewrite Ho.
    change (trace st) with (trace (set_com_port (Some (mkSerial true 10)) st)).
    apply (replied_then _ _ _ (mkSerial true 10)); try reflexivity.
    intros reply. reads_only_tac.
  - (* get_reading *)
    match goal with
    | |- context [snd (?m st)] =>
        assert (R : respects reads_only m) by reads_only_tac;
        destruct (m st) as [o st'] eqn:E
    end.
    apply R in E. destruct E as (evs & T & F).
    exists evs. split; [exact F | exact T].
Qed.

Lemma call_sends_once_first_witness :
  exists reads, forallb is_read reads = true /\
    trace (snd (call (m_set_frame_rate 60) (in_session ["OK" ++ CR]))) =
    (trace (in_session [("OK" ++ CR)%string]) ++
     match command_line (m_set_frame_rate 60) with
     | Some cmd => [EvWrite (cmd ++ CR)]
     | None => []
     end ++ reads)%list.
Proof.
  apply (call_sends_once_first _ _ (mkSerial true 1)). repeat split; reflexivity.
Defined.

(** ** Methods that read one reply *)

Ltac pure_tail :=
  unfold err_checked, bind, lift, ret;
  repeat match goal with
         | |- context [match ?x with _ => _ end] => destruct x
         end;
  reflexivity.

Lemma single_reply_state (m : method) (st : state) (p : Serial) :
  live p st -> single_reply m = true ->
  snd (call m st) =
  log (EvRead (timeout p) (hd "" (rx st)))
    (set_rx (tl (rx st))
       match command_line m with
       | Some cmd => log (EvWrite (cmd ++ CR)) st
       | None => st
       end).
Proof.
  intros (Ha & Hc & Ho) Hs.
  destruct m as [ | | |x|x| | | | | |x|x|x|x|x|x|x|x| | | | | | | | | | | | ];
    try discriminate Hs; simpl call; cbn [command_line];
    unfold audio_in, custom_splash_1, custom_splash_2,
      extended_mode, frame_rate, mask_len, offset, reset_settings, set_audio_in,
      set_audio_trigger_level, ser_extended_mode, set_frame_rate, set_mask_len,
      set_offset, set_speaker_dist, set_video_trigger_level, settings,
      speaker_dist, support_code, stats_avg,
      stats_count, stats_span, stats_trim, get_reading;
    cbv zeta; rewrite guard_in_API, Ha;
    try rewrite (bind_Return _ _ _ _ _ (commmand_and_reply_exact _ st p Hc Ho));
    try rewrite (bind_Return _ _ _ _ _ (get_reply_exact st p Hc Ho));
    cbv beta;
    match goal with
    | |- snd (?k ?s) = ?s' => change s with s'; generalize s'; intros s0
    end;
    pure_tail.
Qed.

(** X7: in remote mode, each method that reads one reply performs exactly
    its one write and then one read under the current timeout, consuming
    the first pending read and no more, also when the conversion of the
    reply then raises; [get_reading] performs the read alone. *)
Theorem single_reply_io (m : method) (st : state) (p : Serial) :
  live p st -> single_reply m = true ->
  trace (snd (call m st)) =
    (trace st ++
     match command_line m with
     | Some cmd => [EvWrite (cmd ++ CR)]
     | None => []
     end ++ [EvRead (timeout p) (hd "" (rx st))])%list /\
  rx (snd (call m st)) = tl (rx st).
Proof.
  intros H Hs. rewrite (single_reply_state m st p H Hs).
  destruct (command_line m); simpl; [rewrite <- app_assoc|]; split; reflexivity.
Qed.

Lemma single_reply_io_witness :
  let st := in_session [("12,x" ++ CR)%string; ("7" ++ CR)%string] in
  trace (snd (call m_settings st)) =
    (trace st ++
     match command_line m_settings with
     | Some cmd => [EvWrite (cmd ++ CR)]
     | None => []
     end ++ [EvRead (timeout (mkSerial true 1)) (hd "" (rx st))])%list /\
  rx (snd (call m_settings st)) = tl (rx st).
Proof.
  intros st. apply (single_reply_io m_settings st (mkSerial true 1));
    repeat split; reflexivity.
Defined.

(** X8: in remote mode, each splash, [set_...] and trim command returns
    the reply text unchanged, with [False] exactly when the text holds
    "ERR"; any other reply, the empty text of a timeout included, is
    reported as success. *)
Theorem error_checked_result (m : method) (st : state) (p : Serial) :
  live p st -> error_checked m = true ->
  let reply := parse_line (hd "" (rx st)) in
  fst (call m st) = Return (VStr reply, negb (PyStr.contains "ERR" reply)).
Proof.
  intros (Ha & Hc & Ho) Hs reply.
  destruct m as [ | | |x|x| | | | | |x|x|x|x|x|x|x|x| | | | | | | | | | | | ];
    try discriminate Hs; simpl call;
    unfold custom_splash_1, custom_splash_2, set_audio_in,
      set_audio_trigger_level, ser_extended_mode, set_frame_rate, set_mask_len,
      set_offset, set_speaker_dist, set_video_trigger_level, stats_trim;
    rewrite guard_in_API, Ha;
    rewrite (bind_Return _ _ _ _ _ (commmand_and_reply_exact _ st p Hc Ho));
    fold reply; unfold err_checked;
    destruct (PyStr.contains "ERR" reply); reflexivity.
Qed.

Lemma error_checked_result_witness :
  let st := in_session [("ERR out of range" ++ CR)%string] in
  let reply := parse_line (hd "" (rx st)) in
  fst (call (m_set_mask_len 900) st) =
  Return (VStr reply, negb (PyStr.contains "ERR" reply)).
Proof.
  intros st. apply (error_checked_result (m_set_mask_len 900) st (mkSerial true 1));
    repeat split; reflexivity.
Defined.

(** In remote mode [audio_in], [extended_mode] and [support_code]
    return the reply text with [True] whatever it is: an "ERR" message
    and the empty text of a timeout are reported as success too. *)
Lemma text_query_always_ok (st : state) (p : Serial) :
  live p st ->
  let reply := parse_line (hd "" (rx st)) in
  fst (audio_in st) = Return (VStr reply, true) /\
  fst (extended_mode st) = Return (VStr reply, true) /\
  fst (support_code st) = Return (VStr reply, true).
Proof.
  intros (Ha & Hc & Ho) reply.
  unfold audio_in, extended_mode, support_code.
  rewrite !guard_in_API, Ha.
  rewrite !(bind_Return _ _ _ _ _ (commmand_and_reply_exact _ st p Hc Ho)).
  repeat split; reflexivity.
Qed.

Lemma text_query_always_ok_witness :
  let st := in_session [("ERR unknown command" ++ CR)%string] in
  let reply := parse_line (hd "" (rx st)) in
  fst (audio_in st) = Return (VStr reply, true) /\
  fst (extended_mode st) = Return (VStr reply, true) /\
  fst (support_code st) = Return (VStr reply, true).
Proof.
  intros st. apply (text_query_always_ok st (mkSerial true 1)).
  repeat split; reflexivity.
Defined.

(** ** Methods that wait for a token *)

Lemma wait_for_string_full s st p :
  com_port st = Some p -> is_open p = true ->
  exists st', wait_for_string s st = (Return (scan s (map parse_line (rx st))), st') /\
              only_io (timeout p) st st'.
Proof.
  intros Hc Ho.
  destruct (wait_for_string_io s st p Hc Ho) as (b & st' & E & I).
  pose proof (wait_for_string_scan s st p Hc Ho) as S. rewrite E in S.
  simpl in S. injection S as ->. exists st'. split; assumption.
Qed.

(** X9: in remote mode [start] and [start_nocal] return the first reply
    line, with [False] exactly when it holds "ERR"; the outcome of the
    wait for "START" that follows is dropped, so a start that is never
    confirmed is still reported as success. *)
Theorem start_result (st : state) (p : Serial) :
  live p st ->
  let reply := parse_line (hd "" (rx st)) in
  fst (start st) = Return (VStr reply, negb (PyStr.contains "ERR" reply)) /\
  fst (start_nocal st) = Return (VStr reply, negb (PyStr.contains "ERR" reply)).
Proof.
  intros (Ha & Hc & Ho) reply. split.
  - unfold start. rewrite guard_in_API, Ha.
    rewrite (bind_Return _ _ _ _ _ (set_timeout_eq 10 st p Hc)). rewrite Ho.
    set (sta := set_com_port _ st).
    rewrite (bind_Return _ _ _ _ _
               (commmand_and_reply_exact "START" sta (mkSerial true 10) eq_refl eq_refl)).
    change (parse_line (hd "" (rx sta))) with reply. set (stb := log _ _).
    destruct (wait_for_string_full "START" stb (mkSerial true 10) eq_refl eq_refl)
      as (stc & E & I).
    rewrite (bind_Return _ _ _ _ _ E).
    assert (Hcc : com_port stc = Some (mkSerial true 10))
      by (rewrite (io_com_port _ _ _ I); reflexivity).
    rewrite (bind_Return _ _ _ _ _ (set_timeout_eq 1 stc _ Hcc)).
    unfold err_checked. destruct (PyStr.contains "ERR" reply); reflexivity.
  - unfold start_nocal. rewrite guard_in_API, Ha.
    rewrite (bind_Return _ _ _ _ _ (commmand_and_reply_exact "START NOCAL" st p Hc Ho)).
    fold reply. set (stb := log _ _).
    destruct (wait_for_string_full "START" stb p Hc Ho) as (stc & E & I).
    rewrite (bind_Return _ _ _ _ _ E).
    unfold err_checked. destruct (PyStr.contains "ERR" reply); reflexivity.
Qed.

Lemma start_result_witness :
  let st := in_session [("START" ++ CR)%string] in
  let reply := parse_line (hd "" (rx st)) in
  fst (start st) = Return (VStr reply, negb (PyStr.contains "ERR" reply)) /\
  fst (start_nocal st) = Return (VStr reply, negb (PyStr.contains "ERR" reply)).
Proof.
  intros st. apply (start_result st (mkSerial true 1)). repeat split; reflexivity.
Defined.

(** X10: in remote mode [calibrate], [clear_stats] and [exit_API] return
    the text "OK" whatever the device sent, with, as flag, the outcome of
    the scan for "OK" over the lines to come. *)
Theorem ok_waiters_result (st : state) (p : Serial) :
  live p st ->
  let found := scan "OK" (map parse_line (rx st)) in
  fst (calibrate st) = Return (VStr "OK", found) /\
  fst (clear_stats st) = Return (VStr "OK", found) /\
  fst (exit_API st) = Return (VStr "OK", found).
Proof.
  intros (Ha & Hc & Ho) found. split; [|split].
  - unfold calibrate. rewrite guard_in_API, Ha.
    rewrite (bind_Return _ _ _ _ _ (set_timeout_eq 10 st p Hc)). rewrite Ho.
    set (sta := set_com_port _ st).
    rewrite (bind_Return _ _ _ _ _
               (send_command_exact "CALIBRATE" sta (mkSerial true 10) eq_refl eq_refl)).
    set (stb := log _ _).
    destruct (wait_for_string_full "OK" stb (mkSerial true 10) eq_refl eq_refl)
      as (stc & E & I).
    rewrite (bind_Return _ _ _ _ _ E).
    assert (Hcc : com_port stc = Some (mkSerial true 10))
      by (rewrite (io_com_port _ _ _ I); reflexivity).
    rewrite (bind_Return _ _ _ _ _ (set_timeout_eq 1 stc _ Hcc)). reflexivity.
  - unfold clear_stats. rewrite guard_in_API, Ha.
    rewrite (bind_Return _ _ _ _ _ (send_command_exact "CLEAR STATS" st p Hc Ho)).
    set (stb := log _ _).
    destruct (wait_for_string_full "OK" stb p Hc Ho) as (stc & E & I).
    rewrite (bind_Return _ _ _ _ _ E). reflexivity.
  - unfold exit_API. rewrite guard_in_API, Ha.
    rewrite (bind_Return _ _ _ _ _ (send_command_exact "EXIT" st p Hc Ho)).
    unfold bind at 1. unfold put_in_API. set (stb := set_in_API _ _).
    destruct (wait_for_string_full "OK" stb p Hc Ho) as (stc & E & I).
    rewrite (bind_Return _ _ _ _ _ E).
    assert (Hcc : com_port stc = Some p)
      by (rewrite (io_com_port _ _ _ I); exact Hc).
    unfold close_port, close, the_port, bind, ret. rewrite Hcc. reflexivity.
Qed.

Lemma ok_waiters_result_witness :
  let st := in_session [("ERR busy" ++ CR)%string] in
  let found := scan "OK" (map parse_line (rx st)) in
  fst (calibrate st) = Return (VStr "OK", found) /\
  fst (clear_stats st) = Return (VStr "OK", found) /\
  fst (exit_API st) = Return (VStr "OK", found).
Proof.
  intros st. apply (ok_waiters_result st (mkSerial true 1)). repeat split; reflexivity.
Defined.

(** ** Tuple replies: conversion in closed form *)

Lemma conv_well_formed k s :
  well_formed k s = true -> conv k (VStr s) = Return (field_value (Some k) s).
Proof.
  destruct k; simpl;
    [destruct (PyStr.parse_int s) | destruct (PyFloat.parse_float s)];
    simpl; congruence.
Qed.

Lemma sorted_head_lt j kj (schema : list (nat * kind)) i k :
  StronglySorted lt (map fst ((j, kj) :: schema)) -> In (i, k) schema -> (j < i)%nat.
Proof.
  simpl. intros Hs Hin. apply StronglySorted_inv in Hs as [_ Hlt].
  rewrite Forall_forall in Hlt. apply Hlt.
  change i with (fst (i, k)). apply in_map. exact Hin.
Qed.

(** All the positions present and well-formed: the conversions succeed and
    change those positions only. *)
Lemma convert_schema_ok schema l :
  StronglySorted lt (map fst schema) ->
  (forall j kj, In (j, kj) schema ->
     exists t, nth_error l j = Some (VStr t) /\ well_formed kj t = true) ->
  exists l', convert_schema schema l = Return l' /\
    length l' = length l /\
    (forall j kj, In (j, kj) schema ->
       exists t, nth_error l j = Some (VStr t) /\
                 nth_error l' j = Some (field_value (Some kj) t)) /\
    (forall i, ~ In i (map fst schema) -> nth_error l' i = nth_error l i).
Proof.
  revert l. induction schema as [|[j kj] schema IH]; intros l Hs Hok.
  - exists l. repeat split; auto. intros j kj [].
  - destruct (Hok j kj (or_introl eq_refl)) as (t & Hj & Hw).
    simpl. unfold convert_at. rewrite Hj, (conv_well_formed _ _ Hw).
    set (l1 := set_nth j _ l).
    assert (Hne : forall i k, In (i, k) schema -> nth_error l1 i = nth_error l i).
    { intros i k Hin. apply nth_error_set_nth_ne.
      pose proof (sorted_head_lt _ _ _ _ _ Hs Hin). lia. }
    pose proof Hs as Hs'. simpl in Hs'. apply StronglySorted_inv in Hs' as [Hs' Hlt].
    destruct (IH l1 Hs') as (l' & E & Hlen & Hconv & Hkeep).
    { intros i k Hin. rewrite (Hne i k Hin). apply Hok. right. exact Hin. }
    exists l'. split; [exact E|]. split.
    { rewrite Hlen. apply length_set_nth. }
    split.
    + intros i k [Heq|Hin].
      * injection Heq as -> ->. exists t. split; [exact Hj|].
        rewrite Hkeep.
        -- apply nth_error_set_nth_eq. apply nth_error_Some. congruence.
        -- intros Hin. rewrite Forall_forall in Hlt. apply Hlt in Hin. lia.
      * destruct (Hconv i k Hin) as (t' & H1 & H2). exists t'.
        rewrite <- (Hne i k Hin). split; assumption.
    + intros i Hni. simpl in Hni.
      rewrite Hkeep by (intros Hin; apply Hni; right; exact Hin).
      apply nth_error_set_nth_ne. intros ->. apply Hni. left. reflexivity.
Qed.

(** The positions present are well-formed but one is missing: the
    conversions reach it and raise [IndexError]. *)
Lemma convert_schema_short schema l :
  StronglySorted lt (map fst schema) ->
  (forall j kj v, In (j, kj) schema -> nth_error l j = Some v ->
     exists t, v = VStr t /\ well_formed kj t = true) ->
  (exists j kj, In (j, kj) schema /\ (length l <= j)%nat) ->
  convert_schema schema l = Raise IndexError.
Proof.
  revert l. induction schema as [|[j kj] schema IH]; intros l Hs Hok (i & k & Hin & Hlen);
    [destruct Hin|].
  simpl. unfold convert_at. destruct (nth_error l j) as [v|] eqn:Hj; [|reflexivity].
  destruct (Hok j kj v (or_introl eq_refl) Hj) as (t & -> & Hw).
  rewrite (conv_well_formed _ _ Hw).
  pose proof Hs as Hs'. simpl in Hs'. apply StronglySorted_inv in Hs' as [Hs' _].
  apply IH; [exact Hs'| |].
  - intros i' k' v Hin' Hn.
    pose proof (sorted_head_lt _ _ _ _ _ Hs Hin').
    rewrite nth_error_set_nth_ne in Hn by lia.
    apply (Hok i' k' v); [right; exact Hin' | exact Hn].
  - destruct Hin as [Heq|Hin].
    + injection Heq as -> ->. apply nth_error_None in Hlen. congruence.
    + exists i, k. split; [exact Hin|]. rewrite length_set_nth. exact Hlen.
Qed.

Lemma nth_error_convert_fields schema i0 fields i :
  nth_error (convert_fields schema i0 fields) i =
  option_map (field_value (kind_at schema (i0 + i))) (nth_error fields i).
Proof.
  revert i0 i. induction fields as [|s rest IH]; intros i0 [|i]; simpl; auto.
  - rewrite Nat.add_0_r. reflexivity.
  - rewrite IH. do 3 f_equal. lia.
Qed.

Lemma kind_at_Some schema i k : kind_at schema i = Some k -> In (i, k) schema.
Proof.
  unfold kind_at. destruct (find _ schema) as [[j kj]|] eqn:F; [|discriminate].
  simpl. intros H. injection H as ->. apply find_some in F as [Hin Heq].
  simpl in Heq. apply Nat.eqb_eq in Heq. subst. exact Hin.
Qed.

Lemma kind_at_None schema i : kind_at schema i = None -> ~ In i (map fst schema).
Proof.
  unfold kind_at. destruct (find _ schema) as [e|] eqn:F; [discriminate|].
  intros _ Hin. apply in_map_iff in Hin as ([j kj] & Hj & Hin). simpl in Hj. subst.
  pose proof (find_none _ _ F _ Hin) as H. simpl in H.
  rewrite Nat.eqb_refl in H. discriminate.
Qed.

Lemma schema_ok_spec schema fields :
  schema_ok schema fields = true ->
  forall j kj, In (j, kj) schema ->
    exists t, nth_error fields j = Some t /\ well_formed kj t = true.
Proof.
  unfold schema_ok. rewrite forallb_forall. intros H j kj Hin.
  specialize (H _ Hin). simpl in H.
  destruct (nth_error fields j) as [t|]; [eauto | discriminate].
Qed.

Lemma present_ok_spec schema fields :
  present_ok schema fields = true ->
  forall j kj t, In (j, kj) schema -> nth_error fields j = Some t ->
    well_formed kj t = true.
Proof.
  unfold present_ok. rewrite forallb_forall. intros H j kj t Hin Hn.
  specialize (H _ Hin). simpl in H. rewrite Hn in H. exact H.
Qed.

(** The conversions of a schema on a split reply, in closed form. *)
Lemma convert_schema_fields schema fields :
  StronglySorted lt (map fst schema) ->
  schema_ok schema fields = true ->
  convert_schema schema (map VStr fields) = Return (convert_fields schema 0 fields).
Proof.
  intros Hs Hok.
  destruct (convert_schema_ok schema (map VStr fields) Hs) as (l' & E & Hlen & Hconv & Hkeep).
  { intros j kj Hin. destruct (schema_ok_spec _ _ Hok j kj Hin) as (t & Hn & Hw).
    exists t. split; [apply map_nth_error; exact Hn | exact Hw]. }
  rewrite E. f_equal. apply nth_error_ext. intros i.
  rewrite nth_error_convert_fields. simpl.
  destruct (kind_at schema i) as [k|] eqn:K.
  - apply kind_at_Some in K. destruct (Hconv i k K) as (t & H1 & H2).
    rewrite H2. rewrite nth_error_map in H1.
    destruct (nth_error fields i) as [t'|]; [|discriminate].
    cbn [option_map] in H1. injection H1 as ->. reflexivity.
  - apply kind_at_None in K. rewrite (Hkeep i K). apply nth_error_map.
Qed.

Lemma convert_schema_missing schema fields :
  StronglySorted lt (map fst schema) ->
  present_ok schema fields = true ->
  (exists j kj, In (j, kj) schema /\ (length fields <= j)%nat) ->
  convert_schema schema (map VStr fields) = Raise IndexError.
Proof.
  intros Hs Hok (j & kj & Hin & Hlen).
  apply convert_schema_short; [exact Hs| |].
  - intros i k v Hi Hn. rewrite nth_error_map in Hn.
    destruct (nth_error fields i) as [t|] eqn:Ht; [|discriminate].
    injection Hn as <-. exists t. split; [reflexivity|].
    apply (present_ok_spec _ _ Hok i k t Hi Ht).
  - exists j, kj. rewrite length_map. split; assumption.
Qed.

Lemma tq_schema_ascending q : StronglySorted lt (map fst (tq_schema q)).
Proof.
  destruct q; simpl;
    repeat (apply SSorted_cons;
            [|repeat (apply Forall_cons; [lia|]); apply Forall_nil]);
    apply SSorted_nil.
Qed.

(** What each tuple query returns, through its schema. *)
Lemma tuple_by_schema q st p :
  live p st ->
  let reply := parse_line (hd "" (rx st)) in
  fst (call (tq_method q) st) =
  if tq_checks_ERR q && PyStr.contains "ERR" reply
  then Return (VStr reply, false)
  else match convert_schema (tq_schema q) (split_comma reply) with
       | Return l => Return (VList l, true)
       | Raise e => Raise e
       end.
Proof.
  intros H reply. pose proof H as (Ha & Hc & Ho).
  destruct q; simpl tq_method; simpl call; cbn [tq_checks_ERR andb tq_schema].
  - apply (settings_by_schema st p H).
  - apply (speaker_dist_by_schema st p H).
  - unfold stats_avg. rewrite guard_in_API, Ha.
    rewrite (bind_Return _ _ _ _ _ (commmand_and_reply_exact _ st p Hc Ho)).
    fold reply. destruct (PyStr.contains "ERR" reply); [reflexivity|].
    cbn [negb]. cbv zeta. unfold pair_schema, convert_schema, conv, bind, lift.
    repeat match goal with
           | |- context [convert_at ?c ?i ?l] => destruct (convert_at c i l)
           end; reflexivity.
  - unfold stats_span. rewrite guard_in_API, Ha.
    rewrite (bind_Return _ _ _ _ _ (commmand_and_reply_exact _ st p Hc Ho)).
    fold reply. destruct (PyStr.contains "ERR" reply); [reflexivity|].
    cbn [negb]. cbv zeta. unfold pair_schema, convert_schema, conv, bind, lift.
    repeat match goal with
           | |- context [convert_at ?c ?i ?l] => destruct (convert_at c i l)
           end; reflexivity.
Qed.

(** X11: in remote mode, when the reply (free of "ERR" for [stats_avg] and
    [stats_span]) has a well-formed number at every numeric position of
    the query, [settings], [speaker_dist], [stats_avg] and [stats_span]
    return with [True] the list of all the comma-separated fields, the
    numeric positions as the numbers they denote and every other field,
    those beyond the expected count included, as text. *)
Theorem tuple_query_converts (q : tuple_query) (st : state) (p : Serial) :
  live p st ->
  let reply := parse_line (hd "" (rx st)) in
  tq_checks_ERR q && PyStr.contains "ERR" reply = false ->
  schema_ok (tq_schema q) (PyStr.split "," reply) = true ->
  fst (call (tq_method q) st) =
  Return (VList (convert_fields (tq_schema q) 0 (PyStr.split "," reply)), true).
Proof.
  intros H reply He Hok. rewrite (tuple_by_schema q st p H). fold reply. rewrite He.
  unfold split_comma. rewrite (convert_schema_fields _ _ (tq_schema_ascending q) Hok).
  reflexivity.
Qed.

Lemma tuple_query_converts_witness :
  let st := in_session [("0.5,2,3,spare" ++ CR)%string] in
  let reply := parse_line (hd "" (rx st)) in
  fst (call (tq_method tq_speaker_dist) st) =
  Return (VList (convert_fields (tq_schema tq_speaker_dist) 0 (PyStr.split "," reply)), true).
Proof.
  intros st. apply (tuple_query_converts tq_speaker_dist st (mkSerial true 1));
    repeat split; reflexivity.
Defined.

(** X12: in remote mode, when the reply (free of "ERR" for [stats_avg] and
    [stats_span]) has fewer fields than the query converts and the
    numeric fields it does have are well-formed, the four tuple queries
    raise [IndexError]; no short list is returned. *)
Theorem tuple_query_short_reply (q : tuple_query) (st : state) (p : Serial) :
  live p st ->
  let reply := parse_line (hd "" (rx st)) in
  tq_checks_ERR q && PyStr.contains "ERR" reply = false ->
  present_ok (tq_schema q) (PyStr.split "," reply) = true ->
  (length (PyStr.split "," reply) < tq_arity q)%nat ->
  fst (call (tq_method q) st) = Raise IndexError.
Proof.
  intros H reply He Hok Hlen. rewrite (tuple_by_schema q st p H). fold reply. rewrite He.
  unfold split_comma.
  rewrite (convert_schema_missing _ _ (tq_schema_ascending q) Hok); [reflexivity|].
  destruct q; simpl in Hlen |- *.
  - exists 9%nat, KInt. split; [simpl; tauto | lia].
  - exists 2%nat, KInt. split; [simpl; tauto | lia].
  - exists 1%nat, KFloat. split; [simpl; tauto | lia].
  - exists 1%nat, KFloat. split; [simpl; tauto | lia].
Qed.

Lemma tuple_query_short_reply_witness :
  fst (call (tq_method tq_settings) (in_session [("SN1,2.2.4,60,0" ++ CR)%string])) =
  Raise IndexError.
Proof.
  apply (tuple_query_short_reply tq_settings _ (mkSerial true 1));
    repeat split; try reflexivity. simpl. lia.
Defined.

(** X13: in remote mode [stats_avg] and [stats_span] hand a reply that
    holds "ERR" back unchanged with [False], converting nothing; on a
    reply free of "ERR" whose first field is not an integer literal, or
    whose second field is present and not a float literal, they raise
    [ValueError]. *)
Theorem stats_pair_errors (st : state) (p : Serial) :
  live p st ->
  let reply := parse_line (hd "" (rx st)) in
  (PyStr.contains "ERR" reply = true ->
     fst (stats_avg st) = Return (VStr reply, false) /\
     fst (stats_span st) = Return (VStr reply, false)) /\
  (PyStr.contains "ERR" reply = false ->
   malformed_field pair_schema (PyStr.split "," reply) ->
     fst (stats_avg st) = Raise ValueError /\
     fst (stats_span st) = Raise ValueError).
Proof.
  intros H reply.
  pose proof (tuple_by_schema tq_stats_avg st p H) as A.
  pose proof (tuple_by_schema tq_stats_span st p H) as S.
  cbn [tq_method call tq_checks_ERR andb tq_schema] in A, S.
  fold reply in A, S. split.
  - intros He. rewrite A, S, He. split; reflexivity.
  - intros He Hm. rewrite A, S, He.
    rewrite (malformed_field_raises pair_schema reply (tq_schema_ascending tq_stats_avg) Hm).
    split; reflexivity.
Qed.

Lemma stats_pair_errors_witness :
  let st := in_session [("n/a,0.5" ++ CR)%string] in
  fst (stats_avg st) = Raise ValueError /\ fst (stats_span st) = Raise ValueError.
Proof.
  intros st.
  destruct (stats_pair_errors st (mkSerial true 1)) as [_ B].
  { repeat split; reflexivity. }
  apply B; [reflexivity|]. exists 0%nat, KInt, "n/a". repeat split; simpl; auto.
Defined.

(** ** The table of [stats], for any number of rows *)

Lemma convert_schema_bad schema fields :
  StronglySorted lt (map fst schema) ->
  schema_ok schema fields = false ->
  convert_schema schema (map VStr fields) = Raise ValueError \/
  convert_schema schema (map VStr fields) = Raise IndexError.
Proof.
  intros Hs Hbad. destruct (present_ok schema fields) eqn:Hp.
  - right. apply convert_schema_missing; auto.
    unfold schema_ok in Hbad. unfold present_ok in Hp.
    rewrite forallb_forall in Hp.
    assert (E : existsb (fun e => negb match nth_error fields (fst e) with
                                       | Some s => well_formed (snd e) s
                                       | None => false
                                       end) schema = true).
    { clear Hp Hs. induction schema as [|e schema IH]; simpl in *; [discriminate|].
      destruct (match nth_error fields (fst e) with Some s => _ | None => _ end);
        simpl in *; auto. }
    apply existsb_exists in E as ([j kj] & Hin & Hneg). simpl in Hneg.
    specialize (Hp _ Hin). simpl in Hp.
    exists j, kj. split; [exact Hin|].
    destruct (nth_error fields j) eqn:Hn; [rewrite Hp in Hneg; discriminate|].
    apply nth_error_None. exact Hn.
  - left. change (map VStr fields) with ((fun fs => map VStr fs) fields).
    assert (M : exists i k s, In (i, k) schema /\ nth_error fields i = Some s /\
                              well_formed k s = false).
    { unfold present_ok in Hp. clear Hs Hbad.
      induction schema as [|[j kj] schema IH]; simpl in *; [discriminate|].
      destruct (nth_error fields j) as [s|] eqn:Hn.
      - destruct (well_formed kj s) eqn:Hw.
        + destruct (IH Hp) as (i & k & s' & Hin & H1 & H2). eauto 8.
        + exists j, kj, s. auto.
      - destruct (IH Hp) as (i & k & s' & Hin & H1 & H2). eauto 8. }
    destruct M as (i & k & s & Hin & Hn & Hw).
    apply (convert_schema_malformed schema _ i k s); auto.
    + intros j kj v _ Hv. rewrite nth_error_map in Hv.
      destruct (nth_error fields j); [|discriminate]. injection Hv as <-. eauto.
    + apply map_nth_error. exact Hn.
Qed.

Lemma row_schema_ascending : StronglySorted lt (map fst row_schema).
Proof.
  simpl.
  repeat (apply SSorted_cons;
          [|repeat (apply Forall_cons; [lia|]); apply Forall_nil]);
  apply SSorted_nil.
Qed.

Lemma convert_cols_row_schema line :
  convert_cols (seq 0 6) (split_comma line) =
  convert_schema row_schema (map VStr (PyStr.split "," line)).
Proof. reflexivity. Qed.

Lemma numeric_row_schema_ok line :
  numeric_row line = schema_ok row_schema (PyStr.split "," line).
Proof.
  unfold numeric_row, schema_ok.
  destruct (PyStr.split "," line) as [|a0 [|a1 [|a2 [|a3 [|a4 [|a5 rest]]]]]];
    simpl; unfold is_some;
    repeat match goal with
           | |- context [PyFloat.parse_float ?a] => destruct (PyFloat.parse_float a)
           end; reflexivity.
Qed.

(** The conversion loops of [stats] on text rows: all rows well-formed
    gives the converted rows; one row that is not makes the whole
    conversion raise. *)
Lemma convert_rows_lines lines :
  forallb numeric_row lines = true ->
  convert_rows (map split_comma lines) =
  Return (map (fun line => convert_fields row_schema 0 (PyStr.split "," line)) lines).
Proof.
  induction lines as [|line lines IH]; cbn [map forallb convert_rows]; [reflexivity|].
  intros H. apply andb_prop in H as [H1 H2].
  rewrite !convert_cols_row_schema.
  rewrite numeric_row_schema_ok in H1.
  rewrite (convert_schema_fields _ _ row_schema_ascending H1).
  rewrite (IH H2). reflexivity.
Qed.

Lemma convert_rows_bad lines :
  forallb numeric_row lines = false ->
  convert_rows (map split_comma lines) = Raise ValueError \/
  convert_rows (map split_comma lines) = Raise IndexError.
Proof.
  induction lines as [|line lines IH]; cbn [map forallb convert_rows]; [discriminate|].
  rewrite !convert_cols_row_schema.
  rewrite numeric_row_schema_ok.
  destruct (schema_ok row_schema (PyStr.split "," line)) eqn:Hok; cbn [andb].
  - intros H. rewrite (convert_schema_fields _ _ row_schema_ascending Hok).
    destruct (IH H) as [-> | ->]; auto.
  - intros _.
    destruct (convert_schema_bad _ _ row_schema_ascending Hok) as [-> | ->]; auto.
Qed.

(** The reading loop of [stats]: it collects the lines up to the first
    empty one. *)
Lemma stats_loop_lines raws : forall bound rows read_line st p rest,
  com_port st = Some p -> is_open p = true ->
  rx st = (raws ++ rest)%list ->
  forallb (fun r => PyStr.truthy (parse_line r)) raws = true ->
  parse_line (hd "" rest) = "" ->
  PyStr.truthy read_line = true ->
  (length (rx st) < bound)%nat ->
  exists st',
    stats_loop bound rows read_line st =
      (Return (rows ++ split_comma read_line
                 :: map (fun r => split_comma (parse_line r)) raws)%list, st') /\
    rx st' = tl rest.
Proof.
  induction raws as [|r raws IH]; intros bound rows read_line st p rest Hc Ho Hrx Ht He Hl Hb;
    (destruct bound as [|n]; [lia|]); simpl stats_loop; rewrite Hl;
    rewrite (bind_Return _ _ _ _ _ (get_reply_exact st p Hc Ho)); rewrite Hrx.
  - simpl app. rewrite He. eexists. split; [destruct n; reflexivity | reflexivity].
  - simpl in Ht. apply andb_prop in Ht as [Ht1 Ht2]. simpl hd.
    set (st1 := log _ _).
    destruct (IH n (rows ++ [split_comma read_line])%list (parse_line r) st1 p rest)
      as (st' & E & R); auto.
    + rewrite Hrx in Hb. simpl in *. lia.
    + exists st'. split; [|exact R]. rewrite E. simpl map.
      rewrite <- app_assoc. reflexivity.
Qed.

Lemma stats_read_lines raws st p rest :
  live p st ->
  rx st = (raws ++ rest)%list ->
  forallb (fun r => PyStr.truthy (parse_line r)) raws = true ->
  parse_line (hd "" rest) = "" ->
  PyStr.contains "ERR" (parse_line (hd "" (rx st))) = false ->
  fst (stats st) =
  match convert_rows (map split_comma (map parse_line raws)) with
  | Return rows => Return (VList (map VList rows), true)
  | Raise e => Raise e
  end.
Proof.
  intros (Ha & Hc & Ho) Hrx Ht He Herr. unfold stats. cbv zeta.
  rewrite guard_in_API, Ha.
  rewrite (bind_Return _ _ _ _ _ (send_command_exact "STATS" st p Hc Ho)).
  set (st0 := log _ st).
  rewrite (bind_Return _ _ _ _ _ (get_reply_exact st0 p Hc Ho)).
  change (rx st0) with (rx st). rewrite Herr. cbn [negb].
  set (st1 := log _ _). unfold bind at 1.
  destruct raws as [|r raws].
  - simpl in Hrx. rewrite Hrx, He. simpl.
    destruct (length (tl rest)); reflexivity.
  - rewrite Hrx. simpl hd. simpl in Ht. apply andb_prop in Ht as [Ht1 Ht2].
    destruct (stats_loop_lines raws (S (length (rx st1))) [] (parse_line r) st1 p rest)
      as (st' & E & R); auto.
    { unfold st1. simpl. rewrite Hrx. reflexivity. }
    rewrite E. simpl app. unfold bind, lift. simpl map. rewrite map_map.
    destruct (convert_rows _); reflexivity.
Qed.

(** X14: in remote mode, when the reads after "STATS" are any number of
    rows, none at all included, each with six float literals in front,
    followed by an empty line, and the first line read is free of "ERR",
    [stats] returns with [True] one list per row, in order: the first six
    fields as the reals they denote, the others as text. *)
Theorem stats_rows (raws : list string) (st : state) (p : Serial) (rest : list string) :
  live p st ->
  rx st = (raws ++ rest)%list ->
  forallb (fun r => numeric_row (parse_line r)) raws = true ->
  parse_line (hd "" rest) = "" ->
  PyStr.contains "ERR" (parse_line (hd "" (rx st))) = false ->
  fst (stats st) =
  Return (VList (map (fun r => VList (convert_fields row_schema 0
                                        (PyStr.split "," (parse_line r)))) raws),
          true).
Proof.
  intros H Hrx Hn He Herr.
  rewrite (stats_read_lines raws st p rest H Hrx); auto.
  - rewrite convert_rows_lines.
    + rewrite !map_map. reflexivity.
    + rewrite forallb_forall in *. intros l Hl. apply in_map_iff in Hl as (r & <- & Hr).
      apply Hn. exact Hr.
  - rewrite forallb_forall in *. intros r Hr. apply numeric_row_truthy. apply Hn. exact Hr.
Qed.

Lemma stats_rows_witness :
  let raws := [("1,2,3,4,5,6,E" ++ CR)%string; ("7,8,9,1e1,11,.5" ++ CR)%string;
               ("0,0,0,0,0,0,,S,O" ++ CR)%string] in
  let st := in_session (raws ++ [CR])%list in
  fst (stats st) =
  Return (VList (map (fun r => VList (convert_fields row_schema 0
                                        (PyStr.split "," (parse_line r)))) raws),
          true).
Proof.
  intros raws st. apply (stats_rows raws st (mkSerial true 1) [CR]); try reflexivity.
  repeat split; reflexivity.
Defined.

(** X15: in remote mode, when the lines read after "STATS" up to the first
    empty one are non-empty, the first free of "ERR", and one of them
    lacks six float literals in front, [stats] raises [ValueError] or
    [IndexError]: one bad row loses the whole table. *)
Theorem stats_bad_row (raws : list string) (st : state) (p : Serial) (rest : list string) :
  live p st ->
  rx st = (raws ++ rest)%list ->
  forallb (fun r => PyStr.truthy (parse_line r)) raws = true ->
  parse_line (hd "" rest) = "" ->
  PyStr.contains "ERR" (parse_line (hd "" (rx st))) = false ->
  forallb (fun r => numeric_row (parse_line r)) raws = false ->
  fst (stats st) = Raise ValueError \/ fst (stats st) = Raise IndexError.
Proof.
  intros H Hrx Ht He Herr Hbad.
  rewrite (stats_read_lines raws st p rest H Hrx); auto.
  destruct (convert_rows_bad (map parse_line raws)) as [-> | ->]; auto.
  rewrite <- Hbad. clear. induction raws; simpl; congruence.
Qed.

Lemma stats_bad_row_witness :
  let st := in_session [("1,2,3,4,5,6,E" ++ CR)%string; ("7,8,9" ++ CR)%string; CR] in
  fst (stats st) = Raise ValueError \/ fst (stats st) = Raise IndexError.
Proof.
  intros st.
  apply (stats_bad_row [("1,2,3,4,5,6,E" ++ CR)%string; ("7,8,9" ++ CR)%string]
           st (mkSerial true 1) [CR]); try reflexivity.
  repeat split; reflexivity.
Defined.

(** ** The exceptions of each method *)











(** ** Mode exit, step by step *)

(** X17: in remote mode [exit_API] writes "EXIT" once, then only reads,
    then closes the port once, as its last action, whatever the device
    sent; afterwards [in_API] is false and the port is closed. *)
Theorem exit_API_trace (st : state) (p : Serial) :
  live p st ->
  exists reads, forallb is_read reads = true /\
    trace (snd (exit_API st)) =
      (trace st ++ [EvWrite ("EXIT" ++ CR)] ++ reads ++ [EvClose])%list /\
    in_API (snd (exit_API st)) = false /\
    port_open (snd (exit_API st)) = false.
Proof.
  intros (Ha & Hc & Ho).
  set (stb := set_in_API false (log (EvWrite ("EXIT" ++ CR)) st)).
  destruct (wait_for_string_full "OK" stb p Hc Ho) as (stc & E & I).
  pose proof (respects_wait_for_string reads_only reads_only_refl reads_only_trans
                read_until_cr_reads_only "OK" _ _ _ E) as (reads & T & F).
  assert (Hcc : com_port stc = Some p) by (rewrite (io_com_port _ _ _ I); exact Hc).
  assert (X : snd (exit_API st) =
              log EvClose (set_com_port (Some (mkSerial false (timeout p))) stc)).
  { unfold exit_API. rewrite guard_in_API, Ha.
    rewrite (bind_Return _ _ _ _ _ (send_command_exact "EXIT" st p Hc Ho)).
    unfold bind at 1. unfold put_in_API. fold stb.
    rewrite (bind_Return _ _ _ _ _ E).
    unfold close_port, close, the_port, bind, ret. rewrite Hcc. reflexivity. }
  rewrite X. exists reads. split; [exact F|]. split.
  - simpl. rewrite T. simpl. rewrite <- !app_assoc. reflexivity.
  - split; [|reflexivity]. simpl. rewrite (io_in_API _ _ _ I). reflexivity.
Qed.

Lemma exit_API_trace_witness :
  let st := in_session [("OK" ++ CR)%string] in
  exists reads, forallb is_read reads = true /\
    trace (snd (exit_API st)) =
      (trace st ++ [EvWrite ("EXIT" ++ CR)] ++ reads ++ [EvClose])%list /\
    in_API (snd (exit_API st)) = false /\
    port_open (snd (exit_API st)) = false.
Proof.
  intros st. apply (exit_API_trace st (mkSerial true 1)). repeat split; reflexivity.
Defined.

(** ** Framing *)

Lemma parse_line_app a b : parse_line (a ++ b) = parse_line a ++ parse_line b.
Proof.
  unfold parse_line. generalize (ascii_of_nat 13). intros cr.
  induction a as [|c a IH]; simpl; [reflexivity|].
  rewrite IH. destruct (Ascii.eqb c cr); reflexivity.
Qed.

Lemma parse_line_clean s :
  mem (ascii_of_nat 13) s = false -> parse_line s = s.
Proof.
  unfold parse_line. generalize (ascii_of_nat 13). intros cr.
  induction s as [|c s IH]; simpl; [reflexivity|].
  rewrite (Ascii.eqb_sym cr c). destruct (Ascii.eqb c cr); simpl; [discriminate|].
  intros H. rewrite (IH H). reflexivity.
Qed.

(** X18: [__parse_line] undoes the framing of [__send_command]: a text
    without carriage return, followed by one, parses back to itself; and
    no parsed line holds a carriage return, wherever it stood in the data
    read. *)
Theorem parse_line_unframes (s : string) :
  (mem (ascii_of_nat 13) s = false -> parse_line (s ++ CR) = s) /\
  mem (ascii_of_nat 13) (parse_line s) = false.
Proof.
  split.
  - intros H. rewrite parse_line_app, (parse_line_clean s H).
    change (parse_line CR) with "". clear H. induction s; simpl; congruence.
  - unfold parse_line. generalize (ascii_of_nat 13). intros cr.
    induction s as [|c s IH]; simpl; [reflexivity|].
    destruct (Ascii.eqb c cr) eqn:E; [exact IH|]. simpl.
    rewrite (Ascii.eqb_sym cr c), E. exact IH.
Qed.

Lemma parse_line_unframes_witness :
  parse_line ("SET FRAME RATE 60" ++ CR) = "SET FRAME RATE 60".
Proof. apply (proj1 (parse_line_unframes "SET FRAME RATE 60")). reflexivity. Defined.

(** ** Replies that cannot be numbers *)

Lemma string_forall_app f a b :
  string_forall f (a ++ b) = string_forall f a && string_forall f b.
Proof. induction a; simpl; [reflexivity|]. rewrite IHa, andb_assoc. reflexivity. Qed.

Lemma consumes_refl P s : consumes P s s.
Proof. exists "". split; reflexivity. Qed.

Lemma consumes_trans P a b c : consumes P a b -> consumes P b c -> consumes P a c.
Proof.
  intros (p1 & -> & F1) (p2 & -> & F2). exists (p1 ++ p2). split.
  - clear. induction p1; simpl; congruence.
  - rewrite string_forall_app, F1, F2. reflexivity.
Qed.

Lemma consumes_cons (P : ascii -> bool) c s rest :
  P c = true -> consumes P s rest -> consumes P (String c s) rest.
Proof.
  intros Hc (p & -> & F). exists (String c p). split; [reflexivity|].
  simpl. rewrite Hc, F. reflexivity.
Qed.

Lemma consumes_all P s : consumes P s "" -> string_forall P s = true.
Proof.
  intros (p & -> & F). rewrite string_forall_app, F. reflexivity.
Qed.

Lemma digit_literal c d : PyStr.digit_of c = Some d -> literal_char c = true.
Proof.
  intros H. unfold literal_char. rewrite H. simpl.
  rewrite orb_true_r. reflexivity.
Qed.

Lemma symbol_literal c : mem c "_+-." = true -> literal_char c = true.
Proof.
  intros H. unfold literal_char. rewrite H, orb_true_r. reflexivity.
Qed.

Lemma letter_literal c : mem (PyFloat.lower c) "einftya" = true -> literal_char c = true.
Proof.
  intros H. unfold literal_char. rewrite H, orb_true_r. reflexivity.
Qed.

Lemma space_literal c : PyStr.is_space c = true -> literal_char c = true.
Proof. intros H. unfold literal_char. rewrite H. reflexivity. Qed.

Lemma lstrip_consumes s : consumes literal_char s (PyStr.lstrip s).
Proof.
  induction s as [|c s IH]; simpl; [apply consumes_refl|].
  destruct (PyStr.is_space c) eqn:E; [|apply consumes_refl].
  apply consumes_cons; [apply space_literal; exact E | exact IH].
Qed.

Lemma all_space_consumes s : PyStr.all_space s = true -> consumes literal_char s "".
Proof.
  induction s as [|c s IH]; simpl; [intros _; apply consumes_refl|].
  intros H. apply andb_prop in H as [H1 H2].
  apply consumes_cons; [apply space_literal; exact H1 | apply IH; exact H2].
Qed.

Lemma sign_consumes s b t : PyStr.sign s = (b, t) -> consumes literal_char s t.
Proof.
  destruct s as [|c s]; simpl.
  - intros H. injection H as _ <-. apply consumes_refl.
  - destruct (Ascii.eqb c "-") eqn:E1; [|destruct (Ascii.eqb c "+") eqn:E2];
      intros H; injection H as _ <-; try apply consumes_refl;
      (apply consumes_cons; [|apply consumes_refl]); apply symbol_literal; simpl;
      rewrite ?E1, ?E2, ?orb_true_r; reflexivity.
Qed.

Lemma digits_tail_consumes n0 : forall s, (String.length s <= n0)%nat ->
  forall acc n v k rest, PyStr.digits_tail acc n s = (v, k, rest) ->
  consumes literal_char s rest.
Proof.
  induction n0 as [|n0 IH]; intros [|c t] Hlen acc n v k rest; simpl in Hlen |- *;
    try lia; try (intros H; injection H as _ _ <-; apply consumes_refl).
  destruct (PyStr.digit_of c) as [d|] eqn:D.
  - intros H. apply consumes_cons; [eapply digit_literal; exact D|].
    eapply IH; [|exact H]. lia.
  - destruct (Ascii.eqb c "_") eqn:U;
      [|intros H; injection H as _ _ <-; apply consumes_refl].
    destruct t as [|c' t']; [intros H; injection H as _ _ <-; apply consumes_refl|].
    destruct (PyStr.digit_of c') as [d|] eqn:D';
      [|intros H; injection H as _ _ <-; apply consumes_refl].
    intros H. apply consumes_cons; [apply symbol_literal; simpl; rewrite U; reflexivity|].
    apply consumes_cons; [eapply digit_literal; exact D'|].
    eapply IH; [|exact H]. simpl in Hlen. lia.
Qed.

Lemma digitpart_consumes s v k rest :
  PyStr.digitpart s = Some (v, k, rest) -> consumes literal_char s rest.
Proof.
  destruct s as [|c t]; simpl; [discriminate|].
  destruct (PyStr.digit_of c) as [d|] eqn:D; [|discriminate].
  intros H. injection H as H.
  apply consumes_cons; [eapply digit_literal; exact D|].
  eapply (digits_tail_consumes (String.length t)); [apply le_n | exact H].
Qed.

Lemma parse_int_literal s n :
  PyStr.parse_int s = Some n -> string_forall literal_char s = true.
Proof.
  unfold PyStr.parse_int. destruct (PyStr.sign (PyStr.lstrip s)) as [neg s1] eqn:S.
  destruct (PyStr.digitpart s1) as [[[v k] rest]|] eqn:D; [|discriminate].
  destruct (PyStr.all_space rest) eqn:A; [|discriminate]. intros _.
  apply consumes_all.
  eapply consumes_trans; [apply lstrip_consumes|].
  eapply consumes_trans; [eapply sign_consumes; exact S|].
  eapply consumes_trans; [eapply digitpart_consumes; exact D|].
  apply all_space_consumes. exact A.
Qed.

Lemma iprefix_consumes word : forall s t,
  (forall c, mem c word = true -> mem c "einftya" = true) ->
  PyFloat.iprefix word s = Some t -> consumes literal_char s t.
Proof.
  induction word as [|w word IH]; intros s t Hw; simpl.
  - intros H. injection H as <-. apply consumes_refl.
  - destruct s as [|c s]; [discriminate|].
    destruct (Ascii.eqb (PyFloat.lower c) w) eqn:E; [|discriminate].
    intros H. apply consumes_cons.
    + apply letter_literal. apply Hw. simpl. rewrite E. reflexivity.
    + apply IH; [|exact H]. intros c' Hc'. apply Hw. simpl. rewrite Hc'.
      apply orb_true_r.
Qed.

Lemma point_consumes c t :
  Ascii.eqb c "." = true -> consumes literal_char (String c t) t.
Proof.
  intros E. apply consumes_cons; [|apply consumes_refl].
  apply symbol_literal. simpl. rewrite E, !orb_true_r. reflexivity.
Qed.

Lemma number_consumes s m k rest :
  PyFloat.number s = Some (m, k, rest) -> consumes literal_char s rest.
Proof.
  unfold PyFloat.number.
  destruct (PyStr.digitpart s) as [[[i ki] [|c t]]|] eqn:D.
  - intros H. injection H as _ _ <-. eapply digitpart_consumes; exact D.
  - apply digitpart_consumes in D.
    destruct (Ascii.eqb c ".") eqn:P.
    + destruct (PyStr.digitpart t) as [[[f kf] r]|] eqn:D2; intros H;
        injection H as _ _ <-;
        (eapply consumes_trans; [exact D|]);
        (eapply consumes_trans; [apply point_consumes; exact P|]).
      * eapply digitpart_consumes; exact D2.
      * apply consumes_refl.
    + intros H. injection H as _ _ <-. exact D.
  - destruct s as [|c t]; [discriminate|].
    destruct (Ascii.eqb c ".") eqn:P; [|discriminate].
    destruct (PyStr.digitpart t) as [[[f kf] r]|] eqn:D2; [|discriminate].
    intros H. injection H as _ _ <-.
    eapply consumes_trans; [apply point_consumes; exact P|].
    eapply digitpart_consumes; exact D2.
Qed.

Lemma exponent_consumes s x rest :
  PyFloat.exponent s = (x, rest) -> consumes literal_char s rest.
Proof.
  unfold PyFloat.exponent. destruct s as [|c t].
  - intros H. injection H as _ <-. apply consumes_refl.
  - destruct (Ascii.eqb (PyFloat.lower c) "e") eqn:E;
      [|intros H; injection H as _ <-; apply consumes_refl].
    destruct (PyStr.sign t) as [neg t1] eqn:S.
    destruct (PyStr.digitpart t1) as [[[v k] r]|] eqn:D;
      intros H; injection H as _ <-; [|apply consumes_refl].
    apply consumes_cons; [apply letter_literal; simpl; rewrite E; reflexivity|].
    eapply consumes_trans; [eapply sign_consumes; exact S|].
    eapply digitpart_consumes; exact D.
Qed.

Lemma absfloat_consumes neg s f rest :
  PyFloat.absfloat neg s = Some (f, rest) -> consumes literal_char s rest.
Proof.
  assert (L : forall word, word = "inf" \/ word = "inity" \/ word = "nan" ->
              forall c, mem c word = true -> mem c "einftya" = true).
  { intros word [-> | [-> | ->]] c; simpl;
      repeat (destruct (Ascii.eqb c _); simpl; auto). }
  unfold PyFloat.absfloat.
  destruct (PyFloat.iprefix "inf" s) as [t|] eqn:I.
  - apply iprefix_consumes in I; [|apply L; auto].
    destruct (PyFloat.iprefix "inity" t) as [t'|] eqn:I2; intros H;
      injection H as _ <-; [|exact I].
    eapply consumes_trans; [exact I|]. eapply iprefix_consumes; [|exact I2].
    apply L; auto.
  - destruct (PyFloat.iprefix "nan" s) as [t|] eqn:N.
    + intros H. injection H as _ <-. eapply iprefix_consumes; [|exact N]. apply L; auto.
    + destruct (PyFloat.number s) as [[[m k] t]|] eqn:Nu; [|discriminate].
      destruct (PyFloat.exponent t) as [x r] eqn:Ex. intros H. injection H as _ <-.
      eapply consumes_trans; [eapply number_consumes; exact Nu|].
      eapply exponent_consumes; exact Ex.
Qed.

Lemma parse_float_literal s f :
  PyFloat.parse_float s = Some f -> string_forall literal_char s = true.
Proof.
  unfold PyFloat.parse_float. destruct (PyStr.sign (PyStr.lstrip s)) as [neg s1] eqn:S.
  destruct (PyFloat.absfloat neg s1) as [[f' rest]|] eqn:D; [|discriminate].
  destruct (PyStr.all_space rest) eqn:A; [|discriminate]. intros _.
  apply consumes_all.
  eapply consumes_trans; [apply lstrip_consumes|].
  eapply consumes_trans; [eapply sign_consumes; exact S|].
  eapply consumes_trans; [eapply absfloat_consumes; exact D|].
  apply all_space_consumes. exact A.
Qed.

Lemma prefix_forall f needle : forall s,
  String.prefix needle s = true -> string_forall f s = true ->
  string_forall f needle = true.
Proof.
  induction needle as [|a needle IH]; intros [|b s]; simpl; auto; try discriminate.
  destruct (ascii_dec a b) as [->|]; [|discriminate].
  intros H F. apply andb_prop in F as [F1 F2]. rewrite F1. simpl. eapply IH; eassumption.
Qed.

Lemma contains_forall f needle s :
  PyStr.contains needle s = true -> string_forall f s = true ->
  string_forall f needle = true.
Proof.
  induction s as [|b s IH]; simpl; intros H F.
  - rewrite orb_false_r in H. destruct needle; [reflexivity | discriminate].
  - apply orb_prop in H as [H|H].
    + eapply (prefix_forall f needle (String b s)); [exact H | exact F].
    + apply andb_prop in F as [_ F]. apply IH; assumption.
Qed.

(** A text holding "ERR" is no literal: neither [int] nor [float] accepts
    it. *)
Lemma ERR_not_a_number s :
  PyStr.contains "ERR" s = true ->
  PyStr.parse_int s = None /\ PyFloat.parse_float s = None.
Proof.
  intros H.
  assert (N : string_forall literal_char s = false).
  { destruct (string_forall literal_char s) eqn:F; [|reflexivity].
    pose proof (contains_forall literal_char "ERR" s H F) as X. discriminate X. }
  split.
  - destruct (PyStr.parse_int s) eqn:E; [|reflexivity].
    apply parse_int_literal in E. congruence.
  - destruct (PyFloat.parse_float s) eqn:E; [|reflexivity].
    apply parse_float_literal in E. congruence.
Qed.

(** X19: in remote mode, when the reply holds "ERR", [frame_rate],
    [mask_len], [stats_count], [offset] and [get_reading] raise
    [ValueError]: the device's error message never comes back as a
    returned pair. *)
Theorem scalar_query_ERR_raises (st : state) (p : Serial) :
  live p st ->
  PyStr.contains "ERR" (parse_line (hd "" (rx st))) = true ->
  fst (frame_rate st) = Raise ValueError /\
  fst (mask_len st) = Raise ValueError /\
  fst (stats_count st) = Raise ValueError /\
  fst (offset st) = Raise ValueError /\
  fst (get_reading st) = Raise ValueError.
Proof.
  intros H He. pose proof H as (Ha & Hc & Ho).
  destruct (ERR_not_a_number _ He) as (Ni & Nf).
  assert (Hi : py_int (VStr (parse_line (hd "" (rx st)))) = Raise ValueError)
    by (simpl; rewrite Ni; reflexivity).
  assert (Hf : py_float (VStr (parse_line (hd "" (rx st)))) = Raise ValueError)
    by (simpl; rewrite Nf; reflexivity).
  unfold frame_rate, mask_len, stats_count, offset, get_reading.
  rewrite !guard_in_API, Ha.
  repeat split; try apply (scalar_query_raises _ py_int st p H Hi);
    try apply (scalar_query_raises _ py_float st p H Hf).
  rewrite (bind_Return _ _ _ _ _ (get_reply_exact st p Hc Ho)).
  destruct (parse_line (hd "" (rx st))) eqn:R; [discriminate He|].
  cbn [PyStr.truthy]. unfold bind, lift. rewrite Hi. reflexivity.
Qed.

Lemma scalar_query_ERR_raises_witness :
  let st := in_session [("ERR not available" ++ CR)%string] in
  fst (frame_rate st) = Raise ValueError /\
  fst (mask_len st) = Raise ValueError /\
  fst (stats_count st) = Raise ValueError /\
  fst (offset st) = Raise ValueError /\
  fst (get_reading st) = Raise ValueError.
Proof.
  intros st. apply (scalar_query_ERR_raises st (mkSerial true 1)).
  - repeat split; reflexivity.
  - reflexivity.
Defined.

(** ** Integers written by [str] and read back by [int] *)

Lemma of_uint_acc_value d : forall p,
  Z.pos (Pos.of_uint_acc d p) = uint_value (Z.pos p) d.
Proof.
  induction d; intros p; cbn [Pos.of_uint_acc uint_value]; try reflexivity;
    rewrite IHd; f_equal; rewrite ?Pos2Z.inj_add, ?Pos2Z.inj_mul; lia.
Qed.

Lemma of_uint_value d : Z.of_uint d = uint_value 0 d.
Proof.
  unfold Z.of_uint.
  induction d; cbn [Pos.of_uint uint_value Z.of_N]; try reflexivity;
    try exact IHd; apply of_uint_acc_value.
Qed.

Lemma digits_tail_uint d : forall acc n,
  exists k, PyStr.digits_tail acc n (NilEmpty.string_of_uint d) =
            (uint_value acc d, k, "").
Proof.
  induction d; intros acc n; simpl; eauto; apply IHd.
Qed.

Lemma parse_int_string_of_uint d :
  PyStr.parse_int (NilZero.string_of_uint d) = Some (Z.of_uint d) /\
  PyStr.parse_int (String "-" (NilZero.string_of_uint d)) = Some (- Z.of_uint d).
Proof.
  rewrite of_uint_value.
  destruct d; try (split; reflexivity);
    unfold PyStr.parse_int; simpl;
    match goal with
    | |- context [PyStr.digits_tail ?a ?n (NilEmpty.string_of_uint ?d)] =>
        destruct (digits_tail_uint d a n) as (k & ->)
    end; split; reflexivity.
Qed.

Lemma parse_int_str_of_int z : PyStr.parse_int (PyStr.str_of_int z) = Some z.
Proof.
  unfold PyStr.str_of_int, NilZero.string_of_int.
  rewrite <- (DecimalZ.of_to z) at 2.
  destruct (Z.to_int z) as [d|d]; simpl Z.of_int; apply parse_int_string_of_uint.
Qed.

(** X20: [int] reads back what [str] wrote: in remote mode, when the
    reply is the decimal text [str(z)] of an integer (the text the
    setters send for their argument), [frame_rate], [mask_len],
    [stats_count] and [get_reading] return that integer with [True]. *)
Theorem integer_reply_round_trip (z : Z) (st : state) (p : Serial) :
  live p st ->
  parse_line (hd "" (rx st)) = PyStr.str_of_int z ->
  fst (frame_rate st) = Return (VInt z, true) /\
  fst (mask_len st) = Return (VInt z, true) /\
  fst (stats_count st) = Return (VInt z, true) /\
  fst (get_reading st) = Return (VInt z, true).
Proof.
  intros (Ha & Hc & Ho) Hr.
  unfold frame_rate, mask_len, stats_count, get_reading.
  rewrite !guard_in_API, Ha.
  rewrite !(bind_Return _ _ _ _ _ (commmand_and_reply_exact _ st p Hc Ho)).
  rewrite (bind_Return _ _ _ _ _ (get_reply_exact st p Hc Ho)).
  rewrite Hr. pose proof (parse_int_str_of_int z) as X.
  repeat split; try (unfold bind, lift; simpl py_int; rewrite X; reflexivity).
  destruct (PyStr.str_of_int z) eqn:E; [discriminate X|].
  cbn [PyStr.truthy]. unfold bind, lift. simpl py_int. rewrite X. reflexivity.
Qed.

Lemma integer_reply_round_trip_witness :
  let st := in_session [("-25" ++ CR)%string] in
  fst (frame_rate st) = Return (VInt (-25), true) /\
  fst (mask_len st) = Return (VInt (-25), true) /\
  fst (stats_count st) = Return (VInt (-25), true) /\
  fst (get_reading st) = Return (VInt (-25), true).
Proof.
  intros st. apply (integer_reply_round_trip (-25) st (mkSerial true 1)).
  - repeat split; reflexivity.
  - reflexivity.
Defined.

(** ** A whole session *)

Lemma exec_all_keeps_mode ops : forall st,
  forallb keeps_mode ops = true ->
  in_API (exec_all ops st) = in_API st /\
  port_open (exec_all ops st) = port_open st.
Proof.
  unfold exec_all. induction ops as [|o ops IH]; intros st H; simpl; [auto|].
  simpl in H. apply andb_prop in H as [Ho H].
  destruct (IH (exec o st) H) as (A & P). rewrite A, P.
  destruct o as [ | |m|c more]; try discriminate Ho; simpl.
  - pose proof (call_frame_snd m st) as F.
    split; [apply (fr_in_API _ _ F) | apply (port_open_frame _ _ F)].
  - split; reflexivity.
Qed.

(** X21: once [enter_API] has returned [True], after any sequence of
    other method calls (whatever they return or raise) and any behaviour
    of the device, [exit_API] finds the session still in remote mode on
    an open port, returns the text "OK", and leaves [in_API] false and
    the port closed. *)
Theorem session_closes (st : state) (ops : list op) :
  fst (enter_API st) = Return true ->
  forallb keeps_mode ops = true ->
  let st2 := exec_all ops (snd (enter_API st)) in
  in_API st2 = true /\ port_open st2 = true /\
  (exists b, fst (exit_API st2) = Return (VStr "OK", b)) /\
  in_API (snd (exit_API st2)) = false /\
  port_open (snd (exit_API st2)) = false.
Proof.
  intros He Hops st2.
  destruct (openable st) eqn:Hop;
    [|rewrite (enter_API_open_failed st Hop) in He; discriminate He].
  destruct (enter_API_opened st Hop) as (b & st1 & E1 & A & C1).
  rewrite E1 in He. simpl in He. injection He as ->.
  destruct (exec_all_keeps_mode ops (snd (enter_API st)) Hops) as (A2 & P2).
  fold st2 in A2, P2. rewrite E1 in A2, P2. simpl in A2, P2.
  unfold port_open in P2 at 2. rewrite C1 in P2. simpl in P2. rewrite A in A2.
  split; [exact A2|]. split; [exact P2|].
  unfold port_open in P2. destruct (com_port st2) as [p|] eqn:Hc; [|discriminate].
  assert (L : live p st2) by (repeat split; assumption).
  destruct (exit_API_live st2 p L) as (b2 & st3 & E & A3 & C3).
  rewrite E. simpl. split; [eauto|]. split; [exact A3|].
  unfold transport_closed in C3. unfold port_open.
  destruct (com_port st3); [|reflexivity]. destruct (is_open s); [discriminate | reflexivity].
Qed.

Lemma session_closes_witness :
  let st := init "COM3" true [("OK" ++ CR)%string; ("60" ++ CR)%string; ("x" ++ CR)%string] in
  let ops := [op_call m_frame_rate; op_call m_offset; op_world true [("OK" ++ CR)%string]] in
  let st2 := exec_all ops (snd (enter_API st)) in
  in_API st2 = true /\ port_open st2 = true /\
  (exists b, fst (exit_API st2) = Return (VStr "OK", b)) /\
  in_API (snd (exit_API st2)) = false /\
  port_open (snd (exit_API st2)) = false.
Proof.
  intros st ops. apply (session_closes st ops); reflexivity.
Defined.
